(** * OpenAI-to-NIM proxy (server.js): model resolution, request translation,
      the streaming transformer and the non-streaming response builder.

    The development is a shallow embedding of [src/server.js].

    - JavaScript strings are modelled by [string], read as the UTF-8 encoding
      of the JavaScript string (a byte sequence).  All needles the source
      searches for are ASCII, so prefix and substring tests on the encoding
      coincide with the tests on the JavaScript string.
    - JavaScript values that come out of [JSON.parse] (and [undefined]) are
      the inductive [JS.value]; numbers are IEEE-754 doubles ([spec_float]).
    - Library functions whose algorithm is not part of the repository are
      section variables: [JSON.parse], [Number.prototype.toString] and
      [String.prototype.toLowerCase].
    - [res.write] calls are recorded as a list of structured writes.
    - The two flags [SHOW_REASONING] and [ENABLE_THINKING_MODE] are constants
      of the source; the functions below take them as arguments, and the
      constants of the source are recorded next to them. *)

From Stdlib Require Import String Ascii List ZArith Bool Lia.
From Stdlib Require Import Floats.SpecFloat.
From stdpp Require Import gmap strings list.

(* ===================================================================== *)
(** ** JavaScript strings *)
(* ===================================================================== *)

Module Str.

(** A string given by its byte values. *)
Definition bytes (l : list N) : string :=
  string_of_list_ascii (map ascii_of_N l).

Definition LF : string := bytes [10%N].
Definition CR : string := bytes [13%N].

(** [strip_prefix p s]: the rest of [s] after the prefix [p], if [s]
    starts with [p]. *)
Fixpoint strip_prefix (p s : string) : option string :=
  match p with
  | EmptyString => Some s
  | String a p' =>
      match s with
      | EmptyString => None
      | String b s' => if Ascii.eqb a b then strip_prefix p' s' else None
      end
  end.

(** [s.startsWith(p)] *)
Definition startsWith (s p : string) : bool :=
  match strip_prefix p s with Some _ => true | None => false end.

(** [s.includes(needle)] *)
Fixpoint includes (s needle : string) : bool :=
  startsWith s needle ||
  match s with
  | EmptyString => false
  | String _ s' => includes s' needle
  end.

(** The shortest prefix of [s] that is followed by [needle], and what
    follows that occurrence of [needle]. *)
Fixpoint split_at_first (needle s : string) : option (string * string) :=
  match strip_prefix needle s with
  | Some r => Some (EmptyString, r)
  | None =>
      match s with
      | EmptyString => None
      | String c s' =>
          match split_at_first needle s' with
          | Some (a, b) => Some (String c a, b)
          | None => None
          end
      end
  end.

(** [s.split('\n')]: never empty; the last element is what follows the
    last line break. *)
Fixpoint split_nl (s : string) : list string :=
  match s with
  | EmptyString => [EmptyString]
  | String c s' =>
      if Ascii.eqb c (ascii_of_N 10) then EmptyString :: split_nl s'
      else
        match split_nl s' with
        | h :: t => String c h :: t
        | [] => [String c EmptyString]
        end
  end.

Fixpoint rev_onto (s acc : string) : string :=
  match s with
  | EmptyString => acc
  | String c s' => rev_onto s' (String c acc)
  end.

Definition rev (s : string) : string := rev_onto s EmptyString.

(** [s.replace(/\r$/, '')]: one carriage return at the very end is removed. *)
Fixpoint strip_cr (s : string) : string :=
  match s with
  | EmptyString => EmptyString
  | String c s' =>
      match s' with
      | EmptyString => if Ascii.eqb c (ascii_of_N 13) then EmptyString else s
      | String _ _ => String c (strip_cr s')
      end
  end.

(** The characters matched by [\s] and removed by [trim]: WhiteSpace and
    LineTerminator of ECMAScript, each by its UTF-8 encoding. *)
Definition whitespace : list string :=
  [ bytes [9]; bytes [10]; bytes [11]; bytes [12]; bytes [13]; bytes [32];
    bytes [194; 160];                                   (* U+00A0 *)
    bytes [225; 154; 128];                              (* U+1680 *)
    bytes [226; 128; 128]; bytes [226; 128; 129]; bytes [226; 128; 130];
    bytes [226; 128; 131]; bytes [226; 128; 132]; bytes [226; 128; 133];
    bytes [226; 128; 134]; bytes [226; 128; 135]; bytes [226; 128; 136];
    bytes [226; 128; 137]; bytes [226; 128; 138];       (* U+2000..U+200A *)
    bytes [226; 128; 168]; bytes [226; 128; 169];       (* U+2028, U+2029 *)
    bytes [226; 128; 175];                              (* U+202F *)
    bytes [226; 129; 159];                              (* U+205F *)
    bytes [227; 128; 128];                              (* U+3000 *)
    bytes [239; 187; 191] ]%N.                          (* U+FEFF *)

(** Removes one whitespace character from the front, if there is one. *)
Fixpoint drop_ws_in (ws : list string) (s : string) : option string :=
  match ws with
  | [] => None
  | w :: ws' =>
      match strip_prefix w s with
      | Some r => Some r
      | None => drop_ws_in ws' s
      end
  end.

Definition drop_ws : string -> option string := drop_ws_in whitespace.

Fixpoint trimStart_fuel (fuel : nat) (s : string) : string :=
  match fuel with
  | O => s
  | S fuel' =>
      match drop_ws s with
      | Some r => trimStart_fuel fuel' r
      | None => s
      end
  end.

(** [s.trimStart()], also the effect of a greedy [\s*] at the front.  Every
    removal shortens the string, so [length s] rounds are enough. *)
Definition trimStart (s : string) : string :=
  trimStart_fuel (String.length s) s.

(** One whitespace character removed from the end. *)
Definition drop_ws_end (s : string) : option string :=
  match drop_ws_in (map rev whitespace) (rev s) with
  | Some r => Some (rev r)
  | None => None
  end.

Fixpoint trimEnd_fuel (fuel : nat) (s : string) : string :=
  match fuel with
  | O => s
  | S fuel' =>
      match drop_ws_end s with
      | Some r => trimEnd_fuel fuel' r
      | None => s
      end
  end.

Definition trimEnd (s : string) : string :=
  trimEnd_fuel (String.length s) s.

(** [s.trim()] *)
Definition trim (s : string) : string := trimEnd (trimStart s).

(** [a.join(sep)] on strings. *)
Fixpoint join (sep : string) (l : list string) : string :=
  match l with
  | [] => EmptyString
  | [x] => x
  | x :: l' => x +:+ sep +:+ join sep l'
  end.

(** No character of [s] is [c]. *)
Fixpoint free_of (c : ascii) (s : string) : bool :=
  match s with
  | EmptyString => true
  | String x s' => negb (Ascii.eqb x c) && free_of c s'
  end.

(** Test text is written with an apostrophe for every double quote. *)
Fixpoint qq (s : string) : string :=
  match s with
  | EmptyString => EmptyString
  | String c s' =>
      String (if Ascii.eqb c (ascii_of_N 39) then ascii_of_N 34 else c) (qq s')
  end.

End Str.

(* ===================================================================== *)
(** ** [Buffer.prototype.toString()]: UTF-8 decoding of one chunk *)
(* ===================================================================== *)

Module Utf8.

(** U+FFFD, the replacement character. *)
Definition REPLACEMENT : string := Str.bytes [239; 191; 189]%N.

(** Decoder state between two bytes: the bytes of the unfinished
    sequence, how many continuation bytes are still needed, and the range
    the next one has to lie in. *)
Record pending := {
  seen : string;
  needed : nat;
  lower : N;
  upper : N
}.

Definition idle : pending :=
  {| seen := EmptyString; needed := 0; lower := 128; upper := 191 |}.

Definition between (lo n hi : N) : bool := (lo <=? n)%N && (n <=? hi)%N.

(** A byte read with no sequence pending: what is emitted, and the state. *)
Definition lead (b : ascii) : string * pending :=
  let n := N_of_ascii b in
  if (n <=? 127)%N then (String b EmptyString, idle)
  else if between 194 n 223 then
    (EmptyString,
     {| seen := String b EmptyString; needed := 1; lower := 128; upper := 191 |})
  else if between 224 n 239 then
    (EmptyString,
     {| seen := String b EmptyString; needed := 2;
        lower := if (n =? 224)%N then 160 else 128;
        upper := if (n =? 237)%N then 159 else 191 |})
  else if between 240 n 244 then
    (EmptyString,
     {| seen := String b EmptyString; needed := 3;
        lower := if (n =? 240)%N then 144 else 128;
        upper := if (n =? 244)%N then 143 else 191 |})
  else (REPLACEMENT, idle).

(** The decoder run over the bytes of one buffer.  A byte that cannot
    continue the pending sequence ends it with U+FFFD and is read again as
    a first byte; a sequence cut off by the end of the buffer gives
    U+FFFD.  Well-formed sequences are kept as they are (the result is
    the UTF-8 encoding of the decoded string). *)
Fixpoint decode (st : pending) (s : string) : string :=
  match s with
  | EmptyString =>
      match needed st with O => EmptyString | S _ => REPLACEMENT end
  | String b r =>
      match needed st with
      | O => let (out, st') := lead b in out +:+ decode st' r
      | S k =>
          if between (lower st) (N_of_ascii b) (upper st) then
            match k with
            | O => seen st +:+ String b (decode idle r)
            | S _ =>
                decode {| seen := seen st +:+ String b EmptyString;
                          needed := k; lower := 128; upper := 191 |} r
            end
          else
            let (out, st') := lead b in
            REPLACEMENT +:+ out +:+ decode st' r
      end
  end.

(** [chunk.toString()] for a [Buffer]: the default encoding is UTF-8, and
    every call decodes its own buffer from the idle state. *)
Definition Buffer_toString (chunk : string) : string := decode idle chunk.

(** The decoder state after the bytes of [s]. *)
Fixpoint pending_after (st : pending) (s : string) : pending :=
  match s with
  | EmptyString => st
  | String b r =>
      match needed st with
      | O => pending_after (snd (lead b)) r
      | S k =>
          if between (lower st) (N_of_ascii b) (upper st) then
            match k with
            | O => pending_after idle r
            | S _ =>
                pending_after {| seen := seen st +:+ String b EmptyString;
                                 needed := k; lower := 128; upper := 191 |} r
            end
          else pending_after (snd (lead b)) r
      end
  end.

(** The chunk does not end in the middle of a multi-byte sequence. *)
Definition ends_on_boundary (chunk : string) : bool :=
  Nat.eqb (needed (pending_after idle chunk)) 0.

End Utf8.

(* ===================================================================== *)
(** ** JavaScript values *)
(* ===================================================================== *)

Module JS.

(** [undefined] and the values of JSON.  An object is the list of its own
    properties in insertion order (the order [JSON.stringify] prints). *)
#[warnings="-register-all"]
Inductive value : Type :=
  | JUndefined
  | JNull
  | JBool (b : bool)
  | JNum (n : spec_float)
  | JStr (s : string)
  | JArr (elems : list value)
  | JObj (fields : list (string * value)).

(** Doubles: 53 bits of precision, exponents below 1024. *)
Definition double_of_Z (z : Z) : spec_float :=
  binary_normalize 53 1024 z 0 false.

Definition num_0 : spec_float := Eval vm_compute in double_of_Z 0.
Definition num_1 : spec_float := Eval vm_compute in double_of_Z 1.
Definition num_400 : spec_float := Eval vm_compute in double_of_Z 400.
Definition num_16384 : spec_float := Eval vm_compute in double_of_Z 16384.
(** The double nearest to 85/100, which is what the literal [0.85] denotes. *)
Definition num_0_85 : spec_float :=
  Eval vm_compute in SFdiv 53 1024 (double_of_Z 85) (double_of_Z 100).

(** ToBoolean *)
Definition truthy (v : value) : bool :=
  match v with
  | JUndefined | JNull => false
  | JBool b => b
  | JNum (S754_zero _) | JNum S754_nan => false
  | JNum _ => true
  | JStr EmptyString => false
  | JStr _ => true
  | JArr _ | JObj _ => true
  end.

(** [a || b] *)
Definition or_else (a b : value) : value := if truthy a then a else b.

(** *** Own properties of an object *)

Fixpoint assoc (k : string) (f : list (string * value)) : option value :=
  match f with
  | [] => None
  | (k', v) :: f' => if String.eqb k' k then Some v else assoc k f'
  end.

(** [o[k] = x]: an existing property keeps its place, a new one goes last. *)
Fixpoint assoc_set (k : string) (x : value) (f : list (string * value))
  : list (string * value) :=
  match f with
  | [] => [(k, x)]
  | (k', v) :: f' =>
      if String.eqb k' k then (k', x) :: f' else (k', v) :: assoc_set k x f'
  end.

(** [delete o[k]] *)
Fixpoint assoc_del (k : string) (f : list (string * value))
  : list (string * value) :=
  match f with
  | [] => []
  | (k', v) :: f' =>
      if String.eqb k' k then assoc_del k f' else (k', v) :: assoc_del k f'
  end.

(** The property [k] replaced by [g] of it, where there is one. *)
Fixpoint assoc_update (k : string) (g : value -> value)
  (f : list (string * value)) : list (string * value) :=
  match f with
  | [] => []
  | (k', v) :: f' =>
      if String.eqb k' k then (k', g v) :: f' else (k', v) :: assoc_update k g f'
  end.

(** *** Property access

    The property names the source reads ([choices], [delta], [content],
    [reasoning_content], [id], [object], [message], [role], [index],
    [finish_reason]) are neither own nor inherited properties of arrays,
    strings, numbers and booleans, nor of [Object.prototype]: on anything
    but an object that has the property they read [undefined]. *)

(** [v.k] for a [v] that is neither [null] nor [undefined]. *)
Definition member (v : value) (k : string) : value :=
  match v with
  | JObj f => match assoc k f with Some x => x | None => JUndefined end
  | _ => JUndefined
  end.

(** [v.k]; [None] is the TypeError on [null] and [undefined]. *)
Definition get (v : value) (k : string) : option value :=
  match v with
  | JUndefined | JNull => None
  | _ => Some (member v k)
  end.

(** [v?.k] *)
Definition opt_get (v : value) (k : string) : value :=
  match v with
  | JUndefined | JNull => JUndefined
  | _ => member v k
  end.

(** [v?.[0]].  On a string JavaScript gives its first UTF-16 unit as a
    string (here: the first byte); the source only reads [delta] of it,
    which no string has. *)
Definition opt_index0 (v : value) : value :=
  match v with
  | JArr (x :: _) => x
  | JObj f => match assoc "0" f with Some x => x | None => JUndefined end
  | JStr (String c _) => JStr (String c EmptyString)
  | _ => JUndefined
  end.

(** [o.k = x].  Only an object shows the assignment afterwards: on an
    array it creates a named property that [JSON.stringify] does not print,
    and on a string, number or boolean it does nothing (the file is not in
    strict mode). *)
Definition set_field (k : string) (x : value) (o : value) : value :=
  match o with
  | JObj f => JObj (assoc_set k x f)
  | _ => o
  end.

(** [delete o.k] *)
Definition delete_field (k : string) (o : value) : value :=
  match o with
  | JObj f => JObj (assoc_del k f)
  | _ => o
  end.

(** The object [o] with its property [k] changed by [g] (a mutation of the
    object that [o.k] refers to). *)
Definition update_field (k : string) (g : value -> value) (o : value) : value :=
  match o with
  | JObj f => JObj (assoc_update k g f)
  | _ => o
  end.

(** The same for element [0] of an array (or property "0" of an object). *)
Definition update_index0 (g : value -> value) (v : value) : value :=
  match v with
  | JArr (x :: l) => JArr (g x :: l)
  | JObj f => JObj (assoc_update "0" g f)
  | _ => v
  end.

(** [Array.isArray(v)] *)
Definition isArray (v : value) : bool :=
  match v with JArr _ => true | _ => false end.

Section ToString.

(** [Number.prototype.toString], the shortest decimal that reads back as
    the same double: a function of the runtime. *)
Variable Number_toString : spec_float -> string.

(** ToString, as string concatenation [s + v] applies it to [v]: an array
    is joined with commas ([null] and [undefined] elements as empty
    strings), an object is [[object Object]].  [None] is the TypeError of
    an object that cannot be turned into a primitive: the conversion calls
    the method [toString] (with [valueOf] of [Object.prototype], which
    gives the object itself, before or after it), and an object that has
    an own property [toString] hides the method of [Object.prototype]
    behind a value that cannot be called.  An array is converted by
    joining its elements, so it passes the error of an element on. *)
Fixpoint ToString (v : value) : option string :=
  match v with
  | JUndefined => Some "undefined"
  | JNull => Some "null"
  | JBool true => Some "true"
  | JBool false => Some "false"
  | JNum n => Some (Number_toString n)
  | JStr s => Some s
  | JArr l =>
      match
        (fix elements (l : list value) : option (list string) :=
           match l with
           | [] => Some []
           | e :: l' =>
               match match e with
                     | JUndefined | JNull => Some EmptyString
                     | _ => ToString e
                     end with
               | None => None
               | Some s =>
                   match elements l' with
                   | None => None
                   | Some ss => Some (s :: ss)
                   end
               end
           end) l
      with
      | None => None
      | Some ss => Some (Str.join "," ss)
      end
  | JObj f =>
      match assoc "toString" f with
      | Some _ => None
      | None => Some "[object Object]"
      end
  end.

(** ToNumber on [undefined], [null], booleans and numbers. *)
Definition ToNumber (v : value) : spec_float :=
  match v with
  | JNum n => n
  | JBool true => num_1
  | JUndefined => S754_nan
  | _ => num_0
  end.

(** [a + b]: arrays and objects are first turned into strings; when a
    string is involved the result is the concatenation, otherwise the sum
    of the two numbers (round to nearest even, as [SFadd] defines it).
    [None] is the TypeError of an operand that cannot be turned into a
    primitive. *)
Definition add (a b : value) : option value :=
  match a, b with
  | (JUndefined | JNull | JBool _ | JNum _),
    (JUndefined | JNull | JBool _ | JNum _) =>
      Some (JNum (SFadd 53 1024 (ToNumber a) (ToNumber b)))
  | _, _ =>
      match ToString a, ToString b with
      | Some x, Some y => Some (JStr (x +:+ y))
      | _, _ => None
      end
  end.

End ToString.

End JS.

(* ===================================================================== *)
(** ** The streaming transformer (server.js, lines 154-239) *)
(* ===================================================================== *)

Module Stream.
Import JS.

(** [const SHOW_REASONING = false;] (line 19).  The transformer below takes
    the flag as its argument [show]. *)
Definition SHOW_REASONING : bool := false.

(** [let buffer = ''; let reasoningStarted = false;] *)
Record state := {
  buffer : string;
  reasoningStarted : bool
}.

Definition init : state := {| buffer := EmptyString; reasoningStarted := false |}.

(** What the handler writes to the caller:
    [WData v] is [res.write(`data: ${JSON.stringify(v)}\n\n`)] and
    [WDone] is [res.write('data: [DONE]\n\n')].  ([JSON.stringify] leaves
    out the properties of [v] whose value is [undefined].) *)
Inductive write : Type :=
  | WData (v : value)
  | WDone.

Definition CLOSE_MARKER : string := "</think>" +:+ Str.LF +:+ Str.LF.
Definition OPEN_MARKER : string := "<think>" +:+ Str.LF.

(** [{ choices: [{ index: 0, delta: { content: '</think>\n\n' } }] }]
    (lines 168-170 and 229-231) *)
Definition closing_at_end : value :=
  JObj [("choices",
         JArr [JObj [("index", JNum num_0);
                     ("delta", JObj [("content", JStr CLOSE_MARKER)])]])].

(** The closing event sent before content (lines 188-196):
    [{ id: data.id, object: data.object,
       choices: [{ index: 0, delta: { content: '</think>\n\n' },
                   finish_reason: null }] }] *)
Definition closing_before_content (data : value) : value :=
  JObj [("id", member data "id");
        ("object", member data "object");
        ("choices",
         JArr [JObj [("index", JNum num_0);
                     ("delta", JObj [("content", JStr CLOSE_MARKER)]);
                     ("finish_reason", JNull)]])].

(** [data.choices?.[0]?.delta], for [data] neither [null] nor [undefined]. *)
Definition first_delta (data : value) : value :=
  opt_get (opt_index0 (member data "choices")) "delta".

(** [data.choices[0].delta] changed in place by [g]. *)
Definition update_delta (g : value -> value) (data : value) : value :=
  update_field "choices" (update_index0 (update_field "delta" g)) data.

(** [line.replace(/^data:\s*/, '')] *)
Definition payload (line : string) : string :=
  match Str.strip_prefix "data:" line with
  | Some r => Str.trimStart r
  | None => line
  end.

(** The chunks of a stream joined into one chunk. *)
Definition joined (chunks : list string) : string :=
  fold_right String.append EmptyString chunks.

(** Every chunk but the last ends where a character ends. *)
Fixpoint cut_between_characters (chunks : list string) : bool :=
  match chunks with
  | [] => true
  | c :: cs =>
      match cs with
      | [] => true
      | _ :: _ => Utf8.ends_on_boundary c && cut_between_characters cs
      end
  end.

(** The decoded chunks of a stream, one after the other. *)
Definition decoded (chunks : list string) : string :=
  fold_right String.append EmptyString (map Utf8.Buffer_toString chunks).

Section Transformer.

Variable Number_toString : spec_float -> string.
(** [JSON.parse]; [None] is the SyntaxError it throws. *)
Variable JSON_parse : string -> option value.

Abbreviation ToString := (JS.ToString Number_toString).
Abbreviation add := (JS.add Number_toString).

(** The body of the [try] block after [JSON.parse] (lines 181-220), for the
    parsed [data]: the writes, and the new [reasoningStarted].  [None] is
    the TypeError of [data.choices] on [null]; it is thrown before anything
    is written.  The additions of lines 202 and 208 can throw a TypeError
    too (see [ToString]); that one comes after the closing event has been
    written and the flag has been changed, so what has been written and
    the flag as it is then are the result, and the event itself is not
    written. *)
Definition transform (show started : bool) (data : value)
  : option (list write * bool) :=
  match get data "choices" with
  | None => None
  | Some _ =>
      let delta := first_delta data in
      if truthy delta then
        let reasoning := member delta "reasoning_content" in
        let content := member delta "content" in
        if show then
          let closes := started && negb (truthy reasoning) && truthy content in
          let closing :=
            if closes then [WData (closing_before_content data)] else [] in
          let started1 := if closes then false else started in
          let opens := truthy reasoning && negb started1 in
          match (if opens then
                   match ToString reasoning with
                   | Some r => Some (JStr (OPEN_MARKER +:+ r))
                   | None => None
                   end
                 else if truthy reasoning then Some reasoning
                 else Some (JStr EmptyString))
          with
          | None => Some (closing, started1)            (* line 202 throws *)
          | Some combined0 =>
              let started2 := if opens then true else started1 in
              match (if truthy content then add combined0 content
                     else Some combined0)
              with
              | None => Some (closing, started2)        (* line 208 throws *)
              | Some combined =>
                  let data' :=
                    update_delta
                      (fun d => delete_field "reasoning_content"
                                  (set_field "content" combined d)) data in
                  Some (closing ++ [WData data'], started2)
              end
          end
        else
          let data' :=
            update_delta
              (fun d => delete_field "reasoning_content"
                          (set_field "content"
                             (or_else content (JStr EmptyString)) d)) data in
          Some ([WData data'], started)
      else Some ([WData data], started)
  end.

(** The callback of [lines.forEach] (lines 162-224) on one raw line. *)
Definition process_line (show started : bool) (rawLine : string)
  : list write * bool :=
  let line := Str.strip_cr rawLine in
  if negb (Str.startsWith line "data:") then ([], started)
  else if Str.includes line "[DONE]" then
    if show && started then ([WData closing_at_end; WDone], false)
    else ([WDone], started)
  else
    match JSON_parse (payload line) with
    | None => ([], started)                       (* catch: SyntaxError *)
    | Some data =>
        match transform show started data with
        | None => ([], started)                   (* catch: TypeError *)
        | Some r => r                (* written through, or up to a throw *)
        end
    end.

(** [lines.forEach(...)] *)
Fixpoint process_lines (show started : bool) (lines : list string)
  : list write * bool :=
  match lines with
  | [] => ([], started)
  | l :: ls =>
      let (w1, s1) := process_line show started l in
      let (w2, s2) := process_lines show s1 ls in
      (w1 ++ w2, s2)
  end.

(** The lines of [text] that are ended by a line break, and what follows
    the last line break: [lines] after [lines.pop()], and the popped
    element. *)
Definition complete_lines (text : string) : list string :=
  removelast (Str.split_nl text).
Definition fragment (text : string) : string :=
  List.last (Str.split_nl text) EmptyString.

(** The handler with the chunk already decoded: [buffer += text] and the
    rest of lines 158-224. *)
Definition on_text (show : bool) (st : state) (text : string)
  : list write * state :=
  let buf := buffer st +:+ text in
  let (ws, started) :=
    process_lines show (reasoningStarted st) (complete_lines buf) in
  (ws, {| buffer := fragment buf; reasoningStarted := started |}).

(** [response.data.on('data', (chunk) => ...)]: [chunk] is a [Buffer],
    given by its bytes. *)
Definition on_data (show : bool) (st : state) (chunk : string)
  : list write * state :=
  on_text show st (Utf8.Buffer_toString chunk).

(** [response.data.on('end', ...)] (lines 227-234), before [res.end()]. *)
Definition on_end (show : bool) (st : state) : list write :=
  if show && reasoningStarted st then [WData closing_at_end] else [].

(** The [data] events of a stream, one chunk after the other. *)
Fixpoint run (show : bool) (st : state) (chunks : list string)
  : list write * state :=
  match chunks with
  | [] => ([], st)
  | c :: cs =>
      let (w1, st1) := on_data show st c in
      let (w2, st2) := run show st1 cs in
      (w1 ++ w2, st2)
  end.

End Transformer.

End Stream.

(* ===================================================================== *)
(** ** Model resolution (server.js, lines 22-41 and 76-118) *)
(* ===================================================================== *)

Module Resolver.

(** [const MODEL_MAPPING = {...}] *)
Definition MODEL_MAPPING : list (string * string) :=
  [ ("gpt-3.5-turbo", "nvidia/llama-3.1-nemotron-ultra-253b-v1");
    ("gpt-4", "qwen/qwen3-coder-480b-a35b-instruct");
    ("gpt-4-turbo", "moonshotai/kimi-k2-instruct-0905");
    ("gpt-4o", "deepseek-ai/deepseek-v3.1");
    ("claude-3-opus", "z-ai/glm4.7");
    ("claude-3-sonnet", "z-ai/glm5");
    ("gemini-pro", "qwen/qwen3-next-80b-a3b-thinking") ].

(** [MODEL_MAPPING] is an object literal: besides its own seven properties,
    [MODEL_MAPPING[model]] finds the members it inherits from
    [Object.prototype], all of them functions or objects (truthy). *)
Definition Object_prototype_keys : list string :=
  [ "constructor"; "__defineGetter__"; "__defineSetter__"; "hasOwnProperty";
    "__lookupGetter__"; "__lookupSetter__"; "isPrototypeOf";
    "propertyIsEnumerable"; "toString"; "valueOf"; "__proto__";
    "toLocaleString" ].

(** The value of [nimModel]: a backend name, or an inherited member. *)
Inductive nim_model : Type :=
  | Backend (name : string)
  | Inherited (key : string).

(** The own property [k] of an object literal with string values. *)
Fixpoint own_property (k : string) (l : list (string * string))
  : option string :=
  match l with
  | [] => None
  | (k', v) :: l' => if String.eqb k' k then Some v else own_property k l'
  end.

(** [MODEL_MAPPING[model]] when it is truthy (line 77), [None] when it is
    [undefined]. *)
Definition mapped (model : string) : option nim_model :=
  match own_property model MODEL_MAPPING with
  | Some b => Some (Backend b)
  | None =>
      if existsb (String.eqb model) Object_prototype_keys
      then Some (Inherited model) else None
  end.

(** [const THINKING_CAPABLE_MODELS = new Set([...])] *)
Definition THINKING_CAPABLE_MODELS : gset string :=
  {[ "nvidia/llama-3.1-nemotron-ultra-253b-v1";
     "qwen/qwen3-235b-a22b";
     "qwen/qwen3-next-80b-a3b-thinking";
     "qwen/qwen3-coder-480b-a35b-instruct" ]}.

(** [const ENABLE_THINKING_MODE = true;] *)
Definition ENABLE_THINKING_MODE : bool := true.

(** [ENABLE_THINKING_MODE && THINKING_CAPABLE_MODELS.has(nimModel)] *)
Definition useThinking (nimModel : nim_model) : bool :=
  ENABLE_THINKING_MODE &&
  match nimModel with
  | Backend name => bool_decide (name ∈ THINKING_CAPABLE_MODELS)
  | Inherited _ => false
  end.

Definition LARGEST : string := "meta/llama-3.1-405b-instruct".
Definition MID : string := "meta/llama-3.1-70b-instruct".
Definition SMALLEST : string := "meta/llama-3.1-8b-instruct".

(** What the probe call came to: a response with its status (axios
    resolves for every status below 500), or an exception (no response, a
    timeout, a status of 500 or more). *)
Inductive probe_result : Type :=
  | Responded (status : Z)
  | Threw.

(** [probeResponse.status >= 200 && probeResponse.status < 300] *)
Definition probe_ok (r : probe_result) : bool :=
  match r with
  | Responded status => (200 <=? status)%Z && (status <? 300)%Z
  | Threw => false
  end.

Section Resolution.

(** [String.prototype.toLowerCase] *)
Variable toLowerCase : string -> string.

(** Lines 109-116. *)
Definition fallback (model : string) : string :=
  let ml := toLowerCase model in
  if Str.includes ml "gpt-4" || Str.includes ml "claude-opus"
     || Str.includes ml "405b" then LARGEST
  else if Str.includes ml "claude" || Str.includes ml "gemini"
          || Str.includes ml "70b" then MID
  else SMALLEST.

(** [if (!nimModel) {...}] (line 108) for a [nimModel] that is a string or
    [null]: [null] and the empty string are falsy. *)
Definition or_fallback (model : string) (nimModel : option string) : string :=
  match nimModel with
  | Some (String _ _ as name) => name
  | _ => fallback model
  end.

(** The resolution runs in two steps, with the [await] of the probe call
    between them. *)
Inductive started : Type :=
  | Resolved (nimModel : nim_model)     (* no probe call *)
  | AwaitProbe.                         (* the probe call has been issued *)

(** Lines 77-82, up to the [await]. *)
Definition resolve_start (verifiedModels : gmap string (option string))
  (model : string) : started :=
  match mapped model with
  | Some m => Resolved m
  | None =>
      match verifiedModels !! model with
      | Some entry => Resolved (Backend (or_fallback model entry))
      | None => AwaitProbe
      end
  end.

(** Lines 96-117, from the result of the probe on: the cache as it is
    when the probe returns, with the new entry, and [nimModel]. *)
Definition resolve_finish (verifiedModels : gmap string (option string))
  (model : string) (r : probe_result)
  : gmap string (option string) * nim_model :=
  if probe_ok r
  then (<[model := Some model]> verifiedModels,
        Backend (or_fallback model (Some model)))
  else (<[model := None]> verifiedModels,
        Backend (or_fallback model None)).

(** A resolution that nothing interleaves with: the cache afterwards,
    [nimModel], and the number of probe calls. *)
Definition resolve (verifiedModels : gmap string (option string))
  (model : string) (r : probe_result)
  : gmap string (option string) * nim_model * nat :=
  match resolve_start verifiedModels model with
  | Resolved m => (verifiedModels, m, 0)
  | AwaitProbe =>
      let (c, m) := resolve_finish verifiedModels model r in (c, m, 1)
  end.

(** *** Interleaved resolutions

    Requests run on one event loop; a resolution can be suspended only at
    its probe.  A schedule lists what happens in order: a request for
    [model] arrives, or the probe of a suspended resolution of [model]
    returns.  The state is the cache together with the models of the
    suspended resolutions. *)
Inductive event : Type :=
  | Arrive (model : string)
  | ProbeReturns (model : string) (r : probe_result).

(** What an event of the schedule produced. *)
Inductive observation : Type :=
  | Done (model : string) (nimModel : nim_model) (probes : nat)
  | Suspended (model : string).

Record loop := {
  verified : gmap string (option string);
  suspended : list string
}.

Fixpoint remove_one (model : string) (l : list string) : option (list string) :=
  match l with
  | [] => None
  | m :: l' =>
      if String.eqb m model then Some l'
      else match remove_one model l' with
           | Some r => Some (m :: r)
           | None => None
           end
  end.

(** [None]: a probe returns that no suspended resolution is waiting for. *)
Definition step (st : loop) (e : event) : option (loop * observation) :=
  match e with
  | Arrive model =>
      match resolve_start (verified st) model with
      | Resolved m => Some (st, Done model m 0)
      | AwaitProbe =>
          Some ({| verified := verified st;
                   suspended := model :: suspended st |},
                Suspended model)
      end
  | ProbeReturns model r =>
      match remove_one model (suspended st) with
      | None => None
      | Some rest =>
          let (c, m) := resolve_finish (verified st) model r in
          Some ({| verified := c; suspended := rest |}, Done model m 1)
      end
  end.

Fixpoint schedule (st : loop) (es : list event)
  : option (loop * list observation) :=
  match es with
  | [] => Some (st, [])
  | e :: es' =>
      match step st e with
      | None => None
      | Some (st1, o) =>
          match schedule st1 es' with
          | None => None
          | Some (st2, os) => Some (st2, o :: os)
          end
      end
  end.

Definition start_of_process : loop := {| verified := ∅; suspended := [] |}.

(** Only resolutions of unmapped names are ever suspended. *)
Definition suspended_unmapped (st : loop) : Prop :=
  forall m, In m (suspended st) -> mapped m = None.

End Resolution.

End Resolver.

(* ===================================================================== *)
(** ** The request handler up to the upstream call (lines 62-133) *)
(* ===================================================================== *)

Module Handler.
Import JS.

(** [const { model, messages, temperature, max_tokens, stream } = req.body;]
    A property the body does not have is [JUndefined].  Model names are
    strings. *)
Record request := {
  model : string;
  messages : value;
  temperature : value;
  max_tokens : value;
  stream : value
}.

(** [res.status(status).json(body)] *)
Record response := {
  status : Z;
  body : value
}.

(** Lines 67-73. *)
Definition invalid_messages : response :=
  {| status := 400;
     body :=
       JObj [("error",
              JObj [("message",
                     JStr "'messages' is required and must be a non-empty array");
                    ("type", JStr "invalid_request_error");
                    ("code", JNum num_400)])] |}.

(** [messages.length] of an array. *)
Definition array_length (v : value) : nat :=
  match v with JArr l => List.length l | _ => 0 end.

(** [!messages || !Array.isArray(messages) || messages.length === 0]
    (line 66) *)
Definition rejects (messages : value) : bool :=
  negb (truthy messages) || negb (isArray messages)
  || Nat.eqb (array_length messages) 0.

(** The object [nimRequest] (lines 126-133); [chat_template_kwargs] is
    [None] when the spread adds no property. *)
Record nim_request := {
  nr_model : Resolver.nim_model;
  nr_messages : value;
  nr_temperature : value;
  nr_max_tokens : value;
  nr_stream : value;
  nr_chat_template_kwargs : option value
}.

Definition nimRequest (nimModel : Resolver.nim_model) (req : request)
  : nim_request :=
  {| nr_model := nimModel;
     nr_messages := messages req;
     nr_temperature := or_else (temperature req) (JNum num_0_85);
     nr_max_tokens := or_else (max_tokens req) (JNum num_16384);
     nr_stream := or_else (stream req) (JBool false);
     nr_chat_template_kwargs :=
       if Resolver.useThinking nimModel
       then Some (JObj [("thinking", JBool true)]) else None |}.

(** What the handler does next. *)
Inductive action : Type :=
  | Respond (r : response)              (* [return res.status(..).json(..)] *)
  | Probe (model : string)              (* the probe call of lines 84-95 *)
  | Upstream (r : nim_request).         (* the call of lines 135-146 *)

Section Handling.

Variable toLowerCase : string -> string.

(** From the arrival of the request to its first [await] or [return]. *)
Definition handle (verifiedModels : gmap string (option string))
  (req : request) : action :=
  if rejects (messages req) then Respond invalid_messages
  else
    match Resolver.resolve_start toLowerCase verifiedModels (model req) with
    | Resolver.Resolved m => Upstream (nimRequest m req)
    | Resolver.AwaitProbe => Probe (model req)
    end.

(** From the return of the probe to the upstream call. *)
Definition resume (verifiedModels : gmap string (option string))
  (req : request) (r : Resolver.probe_result)
  : gmap string (option string) * action :=
  let (c, m) :=
    Resolver.resolve_finish toLowerCase verifiedModels (model req) r in
  (c, Upstream (nimRequest m req)).

End Handling.

End Handler.

(* ===================================================================== *)
(** ** The non-streaming response builder (lines 258-295) *)
(* ===================================================================== *)

Module Builder.
Import JS.

(** [content.match(...)] with the regular expression of line 265: the
    opening marker at the very start, a lazy group of any characters, the
    closing marker, greedy whitespace, and a group with all the rest up to
    the end.  The result is the two groups: the lazy group ends at the
    first closing marker after the opening one, the whitespace that
    follows it is skipped, and the second group is what remains. *)
Definition think_match (content : string) : option (string * string) :=
  match Str.strip_prefix "<think>" content with
  | None => None
  | Some r =>
      match Str.split_at_first "</think>" r with
      | None => None
      | Some (inner, rest) => Some (inner, Str.trimStart rest)
      end
  end.

(** [content.includes('<think>')] by the type of [content]: a string
    method, an array method ([===] on the elements), or no method at all
    ([None], a TypeError). *)
Definition content_includes_think (content : value) : option bool :=
  match content with
  | JStr s => Some (Str.includes s "<think>")
  | JArr l =>
      Some (existsb (fun e => match e with
                              | JStr s => String.eqb s "<think>"
                              | _ => false
                              end) l)
  | _ => None
  end.

Section Building.

Variable Number_toString : spec_float -> string.
Abbreviation ToString := (JS.ToString Number_toString).

(** [{ index: choice.index, message: { role: choice.message.role, content },
       finish_reason: choice.finish_reason }]; [None] when [choice.message]
    is [null] or [undefined]. *)
Definition outbound_choice (choice content : value) : option value :=
  match get (member choice "message") "role" with
  | None => None
  | Some role =>
      Some (JObj [("index", member choice "index");
                  ("message", JObj [("role", role); ("content", content)]);
                  ("finish_reason", member choice "finish_reason")])
  end.

(** ['<think>\n' + reasoning + '\n</think>\n\n' + content] *)
Definition bracket (reasoning content : string) : string :=
  "<think>" +:+ Str.LF +:+ reasoning +:+ Str.LF +:+ "</think>"
    +:+ Str.LF +:+ Str.LF +:+ content.

(** The callback of [response.data.choices.map] for one [choice]; [None]
    is a TypeError: of [choice.message] on [null], of [content.includes]
    or [content.match] on a content without that method, of the additions
    of line 286 (see [ToString]), or of [choice.message.role]. *)
Definition build_choice (useThinking show : bool) (choice : value)
  : option value :=
  match get choice "message" with
  | None => None
  | Some message =>
      let content := or_else (opt_get message "content") (JStr EmptyString) in
      let reasoning :=
        or_else (opt_get message "reasoning_content") (JStr EmptyString) in
      let usual :=
        if show && truthy reasoning then
          match ToString reasoning, ToString content with
          | Some r, Some c => outbound_choice choice (JStr (bracket r c))
          | _, _ => None          (* the additions of line 286 throw *)
          end
        else outbound_choice choice content in
      if negb useThinking && negb (truthy reasoning) then
        match content_includes_think content with
        | None => None
        | Some false => usual
        | Some true =>
            match content with
            | JStr s =>
                match think_match s with
                | Some (inner, rest) =>
                    let extractedReasoning := Str.trim inner in
                    let extractedContent := Str.trim rest in
                    outbound_choice choice
                      (JStr (if show
                             then bracket extractedReasoning extractedContent
                             else extractedContent))
                | None => usual
                end
            | _ => None               (* an array has no [match] *)
            end
        end
      else usual
  end.

End Building.

End Builder.

(* ===================================================================== *)
(** ** A small runtime for the closed examples *)
(* ===================================================================== *)

Module Demo.
Import JS.

(** [JSON.parse] restricted to the texts of a table (every other text is
    rejected): each entry pairs a JSON text with the value it denotes. *)
Fixpoint parse_table (table : list (string * value)) (text : string)
  : option value :=
  match table with
  | [] => None
  | (t, v) :: table' =>
      if String.eqb t text then Some v else parse_table table' text
  end.

(** [toLowerCase] on ASCII text. *)
Fixpoint ascii_lower (s : string) : string :=
  match s with
  | EmptyString => EmptyString
  | String c s' =>
      let n := N_of_ascii c in
      String (if (65 <=? n)%N && (n <=? 90)%N then ascii_of_N (n + 32) else c)
             (ascii_lower s')
  end.

(** [Number.prototype.toString] on the integers 0 and 1 (the examples use
    no other number). *)
Definition number_text (n : spec_float) : string :=
  match n with
  | S754_zero _ => "0"
  | _ => "1"
  end.

(** [{"choices":[{"delta": delta}]}] *)
Definition event_with_delta (delta : list (string * value)) : value :=
  JObj [("choices", JArr [JObj [("delta", JObj delta)]])].

(** The three events of a reasoning trace followed by an answer. *)
Definition reasoning_a : value :=
  event_with_delta [("reasoning_content", JStr "a")].
Definition reasoning_b : value :=
  event_with_delta [("reasoning_content", JStr "b")].
Definition content_c : value :=
  event_with_delta [("content", JStr "c")].

(** An event with the answer "[DONE]". *)
Definition done_as_content : string :=
  Str.qq "data: {'choices':[{'delta':{'content':'[DONE]'}}]}".

(** One line carrying the event [reasoning_a]. *)
Definition reasoning_a_text : string :=
  Str.qq "{'choices':[{'delta':{'reasoning_content':'a'}}]}".

(** A stream whose only event has the content U+00E9 (bytes 195, 169),
    cut between the two bytes of that character. *)
Definition chunk_1 : string :=
  Str.qq "data: {'choices':[{'delta':{'content':'" +:+ Str.bytes [195%N].
Definition chunk_2 : string :=
  Str.bytes [169%N] +:+ Str.qq "'}}]}" +:+ Str.LF.

Definition e_acute : string := Str.bytes [195; 169]%N.
Definition two_replacements : string :=
  Utf8.REPLACEMENT +:+ Utf8.REPLACEMENT.

(** The JSON text of an event with the given content (a text that needs
    no escaping). *)
Definition event_text (content : string) : string :=
  Str.qq "{'choices':[{'delta':{'content':'" +:+ content +:+ Str.qq "'}}]}".

Definition reasoning_b_text : string :=
  Str.qq "{'choices':[{'delta':{'reasoning_content':'b'}}]}".

(** [JSON.parse] on the texts of the examples. *)
Definition parse : string -> option value :=
  parse_table
    [ (reasoning_a_text, reasoning_a);
      (reasoning_b_text, reasoning_b);
      (event_text "c", content_c);
      (event_text e_acute, event_with_delta [("content", JStr e_acute)]);
      (event_text two_replacements,
       event_with_delta [("content", JStr two_replacements)]) ].

(** A choice of a non-streaming response with the given content and no
    reasoning field. *)
Definition choice_with_content (content : string) : value :=
  JObj [("index", JNum num_0);
        ("message", JObj [("role", JStr "assistant");
                          ("content", JStr content)]);
        ("finish_reason", JStr "stop")].

(** The event with content "c", cut inside the "data:" prefix and inside
    the JSON payload. *)
Definition three_chunks : list string :=
  [ "da"; Str.qq "ta: {'choices':[{'del"; Str.qq "ta':{'content':'c'}}]}" +:+ Str.LF ].

(** The bytes of a stream with reasoning "a", reasoning "b", content "c",
    each event followed by the blank line of the framing. *)
Definition stream_abc : string :=
  "data: " +:+ reasoning_a_text +:+ Str.LF +:+ Str.LF
  +:+ "data: " +:+ reasoning_b_text +:+ Str.LF +:+ Str.LF
  +:+ "data: " +:+ event_text "c" +:+ Str.LF +:+ Str.LF.

(** An event cut off in the middle of its JSON text, after "[DONE]". *)
Definition truncated_event : string :=
  Str.qq "data: {'choices':[{'delta':{'content':'[DONE]".

End Demo.

(* ===================================================================== *)
(** ** The non-streaming path as a whole (lines 242-304), the catch block
       (lines 305-318) and the model list (lines 52-60) *)
(* ===================================================================== *)

Module Response.
Import JS.

(** [response.data.choices?.[0]?.message?.content] (line 245) *)
Definition rawContent (data : value) : value :=
  opt_get (opt_get (opt_index0 (member data "choices")) "message") "content".

(** The three debug lines (245-251), for what they can throw: [None] is a
    TypeError.  [response.data.choices] throws on [null]; a truthy
    [rawContent] is sent [includes] and [substring], which both exist on
    strings only ([includes] also on arrays). *)
Definition debug_log (data : value) : option unit :=
  match get data "choices" with
  | None => None
  | Some _ =>
      let raw := rawContent data in
      if truthy raw then
        match raw with
        | JStr _ => Some tt
        | _ => None
        end
      else Some tt
  end.

(** [{ prompt_tokens: 0, completion_tokens: 0, total_tokens: 0 }] *)
Definition zero_usage : value :=
  JObj [("prompt_tokens", JNum num_0);
        ("completion_tokens", JNum num_0);
        ("total_tokens", JNum num_0)].

(** [choices.map(f)], where a call of [f] can throw. *)
Fixpoint map_choices (f : value -> option value) (l : list value)
  : option (list value) :=
  match l with
  | [] => Some []
  | c :: l' =>
      match f c with
      | None => None
      | Some o =>
          match map_choices f l' with
          | None => None
          | Some os => Some (o :: os)
          end
      end
  end.

Section Whole.

Variable Number_toString : spec_float -> string.

(** The [else] branch of [if (stream)] up to [res.json(openaiResponse)].
    [id] is the text [chatcmpl-${Date.now()}] and [created] the number
    [Math.floor(Date.now() / 1000)], both read off the clock; [model] is
    the name the caller sent.  [None] is a TypeError (from the debug lines,
    from [choices.map] when [choices] is no array, or from a choice). *)
Definition build_response (id : string) (created : spec_float)
    (model : string) (useThinking show : bool) (data : value)
  : option value :=
  match debug_log data with
  | None => None
  | Some _ =>
      match member data "choices" with
      | JArr l =>
          match map_choices
                  (Builder.build_choice Number_toString useThinking show) l
          with
          | None => None
          | Some choices =>
              Some (JObj [("id", JStr id);
                          ("object", JStr "chat.completion");
                          ("created", JNum created);
                          ("model", JStr model);
                          ("choices", JArr choices);
                          ("usage", or_else (member data "usage") zero_usage)])
          end
      | _ => None
      end
  end.

End Whole.

(** The catch block: [error.response?.status] is [None] when the error
    has no response (a TypeError, a network error, a timeout).  With the
    headers already sent nothing but [res.end()] happens ([None]). *)
Definition failed (headersSent : bool) (upstream_status : option Z)
    (message : string) : option Handler.response :=
  if headersSent then None
  else
    let status :=
      match upstream_status with
      | Some s => if (s =? 0)%Z then 500%Z else s
      | None => 500%Z
      end in
    Some {| Handler.status := status;
            Handler.body :=
              JObj [("error",
                     JObj [("message",
                            JStr (match message with
                                  | EmptyString => "Internal server error"
                                  | _ => message
                                  end));
                           ("type", JStr "invalid_request_error");
                           ("code", JNum (double_of_Z status))])] |}.

(** [Object.keys(MODEL_MAPPING)] *)
Definition aliases : list string := map fst Resolver.MODEL_MAPPING.

(** The body of [GET /v1/models]; [created_at id] is the clock reading
    [Math.floor(Date.now() / 1000)] taken when the entry of [id] is
    built. *)
Definition list_models (created_at : string -> spec_float) : value :=
  JObj [("object", JStr "list");
        ("data",
         JArr (map (fun id => JObj [("id", JStr id);
                                    ("object", JStr "model");
                                    ("created", JNum (created_at id));
                                    ("owned_by", JStr "nvidia-nim-proxy")])
                   aliases))].

End Response.

(* ===================================================================== *)
(** ** Notions used to state properties *)
(* ===================================================================== *)

Module Notions.
Import JS.

(** The text with every line break turned into carriage return and line
    break. *)
Fixpoint crlf (s : string) : string :=
  match s with
  | EmptyString => EmptyString
  | String c s' =>
      if Ascii.eqb c (ascii_of_N 10)
      then String (ascii_of_N 13) (String c (crlf s'))
      else String c (crlf s')
  end.

(** Every cache entry belongs to an unmapped name and holds that name or
    [null]. *)
Definition cache_well_formed (verifiedModels : gmap string (option string))
  : Prop :=
  forall k v, verifiedModels !! k = Some v ->
    Resolver.mapped k = None /\ (v = None \/ v = Some k).

(** The verdict of the probe as the cache holds it for [model]: accepted
    when the entry is a name, refused when it is [null]. *)
Definition recorded_verdict (verifiedModels : gmap string (option string))
    (model : string) : bool :=
  match verifiedModels !! model with
  | Some (Some _) => true
  | _ => false
  end.

(** The line is an event line that [JSON.parse] reads as [data]. *)
Definition line_of (JSON_parse : string -> option value)
    (rawLine : string) (data : value) : Prop :=
  Str.startsWith (Str.strip_cr rawLine) "data:" = true
  /\ Str.includes (Str.strip_cr rawLine) "[DONE]" = false
  /\ JSON_parse (Stream.payload (Str.strip_cr rawLine)) = Some data.

(** A way to read a part of a value and a way to change it that fit
    together at [v]: either the part is missing and changing does nothing,
    or changing acts on what reading gives. *)
Definition focus (read : value -> value)
    (change : (value -> value) -> value -> value) (v : value) : Prop :=
  (forall g, change g v = v)
  \/ ((forall g, read (change g v) = g (read v))
      /\ (forall g h, change g (change h v) = change (fun x => g (h x)) v)
      /\ (forall g h, g (read v) = h (read v) -> change g v = change h v)
      /\ (forall g, g (read v) = read v -> change g v = v)).

(** The delta [d] as the transformer leaves it: [d.content = content] and
    [delete d.reasoning_content] (lines 211-217). *)
Definition with_content (content : value) (d : value) : value :=
  delete_field "reasoning_content" (set_field "content" content d).

(** The rewriting of the first delta with trace display disabled (lines
    214 and 217): the content or the empty text, and no reasoning field. *)
Definition rewrite_delta (content : value) (d : value) : value :=
  delete_field "reasoning_content"
    (set_field "content" (or_else content (JStr EmptyString)) d).

(** An event line of a stream: the raw line, the event [JSON.parse] reads
    from it, and the text the event carries. *)
Record event_line := {
  raw : string;
  parsed : value;
  text : string
}.

(** The event carries reasoning only: the reasoning of its first delta is
    the non-empty [text], and the delta has no content (missing, [null]
    or empty).  Whatever else the event, its choices and the delta hold
    (an id, a role, an index, a finish reason) is free. *)
Definition reasoning_line (JSON_parse : string -> option value)
    (l : event_line) : Prop :=
  line_of JSON_parse (raw l) (parsed l)
  /\ member (Stream.first_delta (parsed l)) "reasoning_content"
     = JStr (text l)
  /\ text l <> EmptyString
  /\ truthy (member (Stream.first_delta (parsed l)) "content") = false.

(** The event carries content only: the content of its first delta is the
    non-empty [text], and the delta has no reasoning. *)
Definition content_line (JSON_parse : string -> option value)
    (l : event_line) : Prop :=
  line_of JSON_parse (raw l) (parsed l)
  /\ member (Stream.first_delta (parsed l)) "content" = JStr (text l)
  /\ text l <> EmptyString
  /\ truthy (member (Stream.first_delta (parsed l)) "reasoning_content")
     = false.

(** The event of the line as it is written, with the given content in its
    first delta and no reasoning field there; all the rest of the event
    is as it was parsed. *)
Definition written_with (content : string) (l : event_line) : Stream.write :=
  Stream.WData
    (Stream.update_delta (with_content (JStr content)) (parsed l)).

(** A choice of a reply as the backend documents it: it has a message
    object whose content is a text, [null] or missing. *)
Definition plain_choice (choice : value) : Prop :=
  exists fields,
    get choice "message" = Some (JObj fields)
    /\ ((exists s, member (JObj fields) "content" = JStr s)
        \/ member (JObj fields) "content" = JNull
        \/ member (JObj fields) "content" = JUndefined).

(** The reasoning of a choice is a text, [null] or missing. *)
Definition plain_reasoning (choice : value) : Prop :=
  (exists s,
     opt_get (opt_get choice "message") "reasoning_content" = JStr s)
  \/ opt_get (opt_get choice "message") "reasoning_content" = JNull
  \/ opt_get (opt_get choice "message") "reasoning_content" = JUndefined.

(** A choice as the proxy writes it: index, message with role and
    content, and finish reason, and nothing else. *)
Definition written_choice (choice content : value) : value :=
  JObj [("index", member choice "index");
        ("message",
         JObj [("role", member (member choice "message") "role");
               ("content", content)]);
        ("finish_reason", member choice "finish_reason")].

End Notions.

(** ** Events as a backend sends them *)

Module Events.
Import JS Notions.

(** A chunk of a chat completion with one choice and the given delta. *)
Definition chunk (id : string) (delta : list (string * value)) : value :=
  JObj [("id", JStr id);
        ("object", JStr "chat.completion.chunk");
        ("choices",
         JArr [JObj [("index", JNum num_0);
                     ("delta", JObj delta);
                     ("finish_reason", JNull)]])].

(** Its JSON text, from the JSON text of the delta. *)
Definition chunk_text (id delta : string) : string :=
  Str.qq "{'id':'" +:+ id
    +:+ Str.qq "','object':'chat.completion.chunk','choices':[{'index':0,'delta':"
    +:+ delta +:+ Str.qq ",'finish_reason':null}]}".

Definition delta_a : string :=
  Str.qq "{'role':'assistant','content':null,'reasoning_content':'a'}".
Definition delta_b : string := Str.qq "{'reasoning_content':'b'}".
Definition delta_c : string := Str.qq "{'content':'c'}".

(** [JSON.parse] on the three chunks. *)
Definition parse : string -> option value :=
  Demo.parse_table
    [ (chunk_text "x1" delta_a,
       chunk "x1" [("role", JStr "assistant"); ("content", JNull);
                   ("reasoning_content", JStr "a")]);
      (chunk_text "x1" delta_b, chunk "x1" [("reasoning_content", JStr "b")]);
      (chunk_text "x1" delta_c, chunk "x1" [("content", JStr "c")]) ].

Definition line_a : event_line :=
  {| raw := "data: " +:+ chunk_text "x1" delta_a;
     parsed := chunk "x1" [("role", JStr "assistant"); ("content", JNull);
                           ("reasoning_content", JStr "a")];
     text := "a" |}.
Definition line_b : event_line :=
  {| raw := "data: " +:+ chunk_text "x1" delta_b;
     parsed := chunk "x1" [("reasoning_content", JStr "b")];
     text := "b" |}.
Definition line_c : event_line :=
  {| raw := "data: " +:+ chunk_text "x1" delta_c;
     parsed := chunk "x1" [("content", JStr "c")];
     text := "c" |}.

End Events.

(* ===================================================================== *)
(** * Properties *)
(* ===================================================================== *)

(** ** Strings and line splitting *)

Module StrFacts.
Import Str.

Lemma app_cons (c : ascii) (s t : string) :
  String c s +:+ t = String c (s +:+ t).
Proof. reflexivity. Qed.

Lemma app_nil_l (s : string) : EmptyString +:+ s = s.
Proof. reflexivity. Qed.

Lemma app_nil_r (s : string) : s +:+ EmptyString = s.
Proof.
  induction s as [|c s IH]; [reflexivity|].
  rewrite app_cons. f_equal. exact IH.
Qed.

Lemma app_assoc (a b c : string) : a +:+ (b +:+ c) = (a +:+ b) +:+ c.
Proof.
  induction a as [|x a IH]; [reflexivity|].
  rewrite !app_cons. f_equal. exact IH.
Qed.

Lemma last_app_ne {A : Type} (l1 l2 : list A) (d : A) :
  l2 <> [] -> List.last (l1 ++ l2) d = List.last l2 d.
Proof.
  intros Hne. induction l1 as [|a l1 IH]; [reflexivity|].
  cbn [app List.last]. destruct (l1 ++ l2) as [|b r] eqn:E.
  - apply List.app_eq_nil in E. destruct E as [_ E]. contradiction.
  - exact IH.
Qed.

Lemma split_nl_not_nil (s : string) : split_nl s <> [].
Proof.
  induction s as [|c s IH]; cbn [split_nl]; [congruence|].
  destruct (Ascii.eqb c (ascii_of_N 10)); [congruence|].
  destruct (split_nl s); congruence.
Qed.

(** [split] gives the complete lines followed by the unfinished one. *)
Lemma split_nl_decomp (s : string) :
  split_nl s = removelast (split_nl s) ++ [List.last (split_nl s) EmptyString].
Proof. apply app_removelast_last, split_nl_not_nil. Qed.

(** Splitting a concatenation: the complete lines of the first part stay
    as they are, and its unfinished line is continued by the second part. *)
Lemma split_nl_app (x y : string) :
  split_nl (x +:+ y)
  = removelast (split_nl x)
      ++ split_nl (List.last (split_nl x) EmptyString +:+ y).
Proof.
  induction x as [|c x IH]; [reflexivity|].
  rewrite app_cons. cbn [split_nl].
  rewrite IH. clear IH.
  pose proof (split_nl_decomp x) as Hd.
  generalize dependent (List.last (split_nl x) EmptyString).
  generalize dependent (removelast (split_nl x)).
  intros L f Hd. rewrite Hd. clear Hd.
  destruct (Ascii.eqb c (ascii_of_N 10)) eqn:Hc.
  - change (EmptyString :: L ++ [f]) with ((EmptyString :: L) ++ [f]).
    rewrite removelast_last, last_last. reflexivity.
  - destruct L as [|h t]; cbn [app].
    + cbn [removelast List.last app].
      rewrite app_cons. cbn [split_nl]. rewrite Hc. reflexivity.
    + change (String c h :: t ++ [f]) with ((String c h :: t) ++ [f]).
      rewrite removelast_last, last_last. reflexivity.
Qed.

(** A text without line break, followed by a line break, is the first
    line of what [split] returns. *)
Lemma split_nl_line (l rest : string) :
  includes l LF = false ->
  split_nl (l +:+ LF +:+ rest) = l :: split_nl rest.
Proof.
  induction l as [|c l IH]; intros H.
  - reflexivity.
  - rewrite app_cons. cbn [split_nl].
    cbn [includes] in H. apply orb_false_iff in H. destruct H as [Hc Hl].
    unfold startsWith, LF, bytes in Hc. cbn [map string_of_list_ascii strip_prefix] in Hc.
    rewrite Ascii.eqb_sym.
    destruct (Ascii.eqb (ascii_of_N 10) c); [discriminate|].
    rewrite (IH Hl). reflexivity.
Qed.

(** *** Searching *)

Lemma strip_prefix_app (p r : string) : strip_prefix p (p +:+ r) = Some r.
Proof.
  induction p as [|a p IH]; [reflexivity|].
  rewrite app_cons. cbn [strip_prefix]. now rewrite Ascii.eqb_refl.
Qed.

Lemma startsWith_includes (s p : string) :
  startsWith s p = true -> includes s p = true.
Proof. intros H. destruct s; cbn [includes]; now rewrite H. Qed.

(** A needle in which [c] does not occur, and that is no prefix of [u], is
    no prefix of [u] continued by [c] either. *)
Lemma strip_prefix_before_char (c : ascii) (n u v : string) :
  free_of c n = true ->
  strip_prefix n u = None ->
  strip_prefix n (u +:+ String c v) = None.
Proof.
  revert u. induction n as [|a n IH]; intros u Hfree Hu.
  - discriminate Hu.
  - cbn [free_of] in Hfree. apply andb_true_iff in Hfree.
    destruct Hfree as [Ha Hn]. apply negb_true_iff in Ha.
    destruct u as [|b u].
    + rewrite app_nil_l. cbn [strip_prefix]. now rewrite Ha.
    + rewrite app_cons. cbn [strip_prefix] in *.
      destruct (Ascii.eqb a b); [now apply IH | reflexivity].
Qed.

(** The first occurrence of a needle whose first character occurs nowhere
    else in it: a text that does not contain the needle, followed by the
    needle, is split right there. *)
Lemma split_at_first_app (a : ascii) (n s rest : string) :
  free_of a n = true ->
  includes s (String a n) = false ->
  split_at_first (String a n) (s +:+ String a n +:+ rest) = Some (s, rest).
Proof.
  intros Hfree. induction s as [|c s IH]; intros Hs.
  - rewrite app_nil_l.
    destruct (String a n +:+ rest) as [|x y] eqn:E; [discriminate E|].
    cbn [split_at_first]. rewrite <- E.
    now rewrite strip_prefix_app.
  - cbn [includes] in Hs. apply orb_false_iff in Hs. destruct Hs as [Hp Hs].
    unfold startsWith in Hp.
    destruct (strip_prefix (String a n) (String c s)) eqn:E; [discriminate|].
    rewrite app_cons. cbn [split_at_first].
    assert (Hnone : strip_prefix (String a n)
                      (String c (s +:+ String a n +:+ rest)) = None).
    { cbn [strip_prefix] in *. destruct (Ascii.eqb a c); [|reflexivity].
      rewrite app_cons. now apply strip_prefix_before_char. }
    rewrite Hnone. now rewrite (IH Hs).
Qed.

(** *** Trimming *)

Lemma strip_prefix_length (p s r : string) :
  strip_prefix p s = Some r -> String.length s = String.length p + String.length r.
Proof.
  revert s. induction p as [|a p IH]; intros s.
  - cbn. now intros [= ->].
  - destruct s as [|b s]; cbn [strip_prefix]; [discriminate|].
    destruct (Ascii.eqb a b); [|discriminate].
    intros H. apply IH in H. cbn [String.length]. lia.
Qed.

Lemma drop_ws_in_shorter (ws : list string) (s r : string) :
  Forall (fun w => 0 < String.length w) ws ->
  drop_ws_in ws s = Some r -> String.length r < String.length s.
Proof.
  induction ws as [|w ws IH]; intros Hws; cbn [drop_ws_in]; [discriminate|].
  inversion Hws as [|? ? Hw Hws']; subst.
  destruct (strip_prefix w s) as [r'|] eqn:E.
  - intros [= ->]. apply strip_prefix_length in E. lia.
  - now apply IH.
Qed.

Lemma drop_ws_shorter (s r : string) :
  drop_ws s = Some r -> String.length r < String.length s.
Proof.
  apply drop_ws_in_shorter. unfold whitespace.
  repeat (constructor; [cbn; lia|]). constructor.
Qed.

(** With enough fuel, [trimStart] stops at a string that starts with no
    whitespace. *)
Lemma trimStart_fuel_done (n : nat) (s : string) :
  String.length s <= n -> drop_ws (trimStart_fuel n s) = None.
Proof.
  revert s. induction n as [|n IH]; intros s Hn.
  - destruct s; [reflexivity | cbn in Hn; lia].
  - cbn [trimStart_fuel]. destruct (drop_ws s) as [r|] eqn:E; [|exact E].
    apply IH. apply drop_ws_shorter in E. lia.
Qed.

Lemma trimStart_fuel_fixed (n : nat) (s : string) :
  drop_ws s = None -> trimStart_fuel n s = s.
Proof. intros H. destruct n; cbn [trimStart_fuel]; [reflexivity | now rewrite H]. Qed.

(** More fuel than needed changes nothing. *)
Lemma trimStart_fuel_stable (n m : nat) (s : string) :
  String.length s <= n -> String.length s <= m ->
  trimStart_fuel n s = trimStart_fuel m s.
Proof.
  revert m s. induction n as [|n IH]; intros m s Hn Hm.
  - destruct s; [|cbn in Hn; lia].
    symmetry. now apply trimStart_fuel_fixed.
  - destruct m as [|m].
    + destruct s; [|cbn in Hm; lia]. now apply trimStart_fuel_fixed.
    + cbn [trimStart_fuel]. destruct (drop_ws s) as [r|] eqn:E; [|reflexivity].
      apply drop_ws_shorter in E. apply IH; lia.
Qed.

Lemma trimStart_fuel_enough (n : nat) (s : string) :
  String.length s <= n -> trimStart_fuel n s = trimStart s.
Proof. intros H. unfold trimStart. apply trimStart_fuel_stable; lia. Qed.

Lemma trimStart_idempotent (s : string) : trimStart (trimStart s) = trimStart s.
Proof.
  unfold trimStart at 1. apply trimStart_fuel_fixed.
  unfold trimStart. now apply trimStart_fuel_done.
Qed.

(** Whitespace in front is skipped. *)
Lemma trimStart_drop (s r : string) :
  drop_ws s = Some r -> trimStart s = trimStart r.
Proof.
  intros E. pose proof (drop_ws_shorter _ _ E) as Hr.
  unfold trimStart at 1.
  destruct (String.length s) as [|m] eqn:Hm; [lia|].
  cbn [trimStart_fuel]. rewrite E. apply trimStart_fuel_enough. lia.
Qed.

Lemma trim_trimStart (s : string) : trim (trimStart s) = trim s.
Proof. unfold trim. now rewrite trimStart_idempotent. Qed.

End StrFacts.

(** ** Decoding *)

Module Utf8Facts.
Import Utf8.

(** With nothing pending, only [needed] matters. *)
Lemma decode_idle (st : pending) (s : string) :
  needed st = 0 -> decode st s = decode idle s.
Proof. intros H. destruct s; cbn [decode]; now rewrite H. Qed.

(** Decoding up to a character boundary and decoding the rest can be
    done apart. *)
Lemma decode_app (st : pending) (a b : string) :
  needed (pending_after st a) = 0 ->
  decode st (a +:+ b) = decode st a +:+ decode idle b.
Proof.
  revert st. induction a as [|x a IH]; intros st H.
  - cbn [pending_after] in H. rewrite StrFacts.app_nil_l.
    rewrite (decode_idle st b H). cbn [decode]. now rewrite H.
  - rewrite StrFacts.app_cons. cbn [decode pending_after] in *.
    destruct (needed st) as [|k] eqn:En.
    + destruct (lead x) as [out st'] eqn:El. cbn [snd] in H.
      rewrite (IH st' H). now rewrite StrFacts.app_assoc.
    + destruct (between (lower st) (N_of_ascii x) (upper st)).
      * destruct k as [|k].
        -- rewrite (IH idle H). rewrite <- !StrFacts.app_assoc.
           now rewrite StrFacts.app_cons.
        -- now rewrite IH.
      * destruct (lead x) as [out st'] eqn:El. cbn [snd] in H.
        rewrite (IH st' H). now rewrite <- !StrFacts.app_assoc.
Qed.

Lemma Buffer_toString_app (a b : string) :
  ends_on_boundary a = true ->
  Buffer_toString (a +:+ b) = Buffer_toString a +:+ Buffer_toString b.
Proof.
  unfold ends_on_boundary, Buffer_toString. intros H.
  apply Nat.eqb_eq in H. now apply decode_app.
Qed.

End Utf8Facts.

(** ** Objects *)

Module JSFacts.
Import JS.

Lemma assoc_update_same k g f v :
  assoc k f = Some v -> assoc k (assoc_update k g f) = Some (g v).
Proof.
  induction f as [|[k' x] f IH]; cbn [assoc assoc_update]; [congruence|].
  destruct (String.eqb k' k) eqn:E; cbn [assoc]; rewrite E.
  - congruence.
  - exact IH.
Qed.

Lemma assoc_set_same k x f : assoc k (assoc_set k x f) = Some x.
Proof.
  induction f as [|[k' y] f IH]; cbn [assoc assoc_set].
  - now rewrite String.eqb_refl.
  - destruct (String.eqb k' k) eqn:E; cbn [assoc]; rewrite E; [reflexivity|].
    exact IH.
Qed.

Lemma assoc_del_same k f : assoc k (assoc_del k f) = None.
Proof.
  induction f as [|[k' y] f IH]; cbn [assoc assoc_del]; [reflexivity|].
  destruct (String.eqb k' k) eqn:E; [exact IH|].
  cbn [assoc]. rewrite E. exact IH.
Qed.

Lemma assoc_del_other k k' f :
  String.eqb k k' = false -> assoc k' (assoc_del k f) = assoc k' f.
Proof.
  intros Hne. induction f as [|[k0 y] f IH]; cbn [assoc assoc_del];
    [reflexivity|].
  destruct (String.eqb k0 k) eqn:E.
  - apply String.eqb_eq in E. subst k0. rewrite Hne. exact IH.
  - cbn [assoc]. now rewrite IH.
Qed.

(** A value whose [delta] is an object is itself an object. *)
Lemma opt_get_object v k fields :
  opt_get v k = JObj fields ->
  exists f, v = JObj f /\ assoc k f = Some (JObj fields).
Proof.
  destruct v as [| |b|n|s|l|f]; cbn; try congruence.
  destruct (assoc k f) as [x|] eqn:E; [|congruence].
  intros ->. now exists f.
Qed.

Lemma member_object v k fields :
  member v k = JObj fields ->
  exists f, v = JObj f /\ assoc k f = Some (JObj fields).
Proof.
  destruct v as [| |b|n|s|l|f]; cbn; try congruence.
  destruct (assoc k f) as [x|] eqn:E; [|congruence].
  intros ->. now exists f.
Qed.

Lemma member_array v k l :
  member v k = JArr l -> exists f, v = JObj f /\ assoc k f = Some (JArr l).
Proof.
  destruct v as [| |b|n|s|l0|f]; cbn; try congruence.
  destruct (assoc k f) as [x|] eqn:E; [|congruence].
  intros ->. now exists f.
Qed.

Lemma opt_index0_object v f :
  opt_index0 v = JObj f ->
  (exists l, v = JArr (JObj f :: l))
  \/ (exists f0, v = JObj f0 /\ assoc "0" f0 = Some (JObj f)).
Proof.
  destruct v as [| |b|n|s|l|f0]; cbn; try congruence.
  - destruct s; congruence.
  - destruct l as [|x l]; [congruence|]. intros ->. left. now exists l.
  - destruct (assoc "0" f0) as [x|] eqn:E; [|congruence].
    intros ->. right. now exists f0.
Qed.

End JSFacts.

(** ** Changes of the first delta *)

Module DeltaFacts.
Import JS Stream Notions.

Lemma assoc_update_none k g f : assoc k f = None -> assoc_update k g f = f.
Proof.
  induction f as [|[k' x] f IH]; cbn [assoc assoc_update]; [reflexivity|].
  destruct (String.eqb k' k); [discriminate|]. intros H. now rewrite IH.
Qed.

Lemma assoc_update_twice k g h f :
  assoc_update k g (assoc_update k h f) = assoc_update k (fun x => g (h x)) f.
Proof.
  induction f as [|[k' x] f IH]; cbn [assoc_update]; [reflexivity|].
  destruct (String.eqb k' k) eqn:E; cbn [assoc_update]; rewrite E;
    [reflexivity | now rewrite IH].
Qed.

Lemma assoc_update_ext k g h f v :
  assoc k f = Some v -> g v = h v -> assoc_update k g f = assoc_update k h f.
Proof.
  induction f as [|[k' x] f IH]; cbn [assoc assoc_update]; [discriminate|].
  destruct (String.eqb k' k).
  - intros [= ->] ->. reflexivity.
  - intros Hf Hv. now rewrite (IH Hf Hv).
Qed.

Lemma assoc_update_id k g f v :
  assoc k f = Some v -> g v = v -> assoc_update k g f = f.
Proof.
  induction f as [|[k' x] f IH]; cbn [assoc assoc_update]; [discriminate|].
  destruct (String.eqb k' k).
  - intros [= ->] ->. reflexivity.
  - intros Hf Hv. now rewrite (IH Hf Hv).
Qed.

Lemma focus_fields (k : string) (f : list (string * value)) :
  focus (fun v => member v k) (update_field k) (JObj f).
Proof.
  destruct (assoc k f) as [x|] eqn:E.
  - right. cbn [update_field member]. repeat split.
    + intros g. now rewrite (JSFacts.assoc_update_same _ _ _ _ E), E.
    + intros g h. now rewrite assoc_update_twice.
    + intros g h. rewrite E. intros H.
      now rewrite (assoc_update_ext _ _ _ _ _ E H).
    + intros g. rewrite E. intros H. now rewrite (assoc_update_id _ _ _ _ E H).
  - left. intros g. cbn [update_field]. now rewrite assoc_update_none.
Qed.

Lemma focus_member (k : string) (v : value) :
  focus (fun v => member v k) (update_field k) v.
Proof.
  destruct v as [| |b|n|s|l|f]; try (left; reflexivity). apply focus_fields.
Qed.

Lemma focus_opt_get (k : string) (v : value) :
  focus (fun v => opt_get v k) (update_field k) v.
Proof.
  destruct v as [| |b|n|s|l|f]; try (left; reflexivity).
  exact (focus_fields k f).
Qed.

Lemma focus_index0 (v : value) : focus opt_index0 update_index0 v.
Proof.
  destruct v as [| |b|n|s|l|f]; try (left; reflexivity).
  - destruct l as [|x l]; [left; reflexivity|].
    right. cbn [update_index0 opt_index0]. repeat split.
    + intros g h H. now rewrite H.
    + intros g H. now rewrite H.
  - exact (focus_fields "0" f).
Qed.

(** Reading through two steps and changing through two steps fit
    together when each step does. *)
Lemma focus_compose read1 change1 read2 change2 (v : value) :
  focus read1 change1 v ->
  (forall w, focus read2 change2 w) ->
  focus (fun x => read2 (read1 x)) (fun g => change1 (change2 g)) v.
Proof.
  intros [Hmiss | (Hread & Htwice & Hext & Hid)] H2.
  - left. intros g. apply Hmiss.
  - destruct (H2 (read1 v)) as [Hmiss2 | (Hread2 & Htwice2 & Hext2 & Hid2)].
    + left. intros g. apply Hid, Hmiss2.
    + right. repeat split.
      * intros g. now rewrite Hread, Hread2.
      * intros g h. rewrite Htwice. apply Hext. apply Htwice2.
      * intros g h H. apply Hext. now apply Hext2.
      * intros g H. apply Hid. now apply Hid2.
Qed.

Lemma focus_delta (data : value) : focus first_delta update_delta data.
Proof.
  unfold first_delta, update_delta.
  apply (focus_compose (fun v => member v "choices") (update_field "choices")
           (fun x => opt_get (opt_index0 x) "delta")
           (fun g => update_index0 (update_field "delta" g))).
  - apply focus_member.
  - intros w.
    apply (focus_compose opt_index0 update_index0
             (fun v => opt_get v "delta") (update_field "delta")).
    + apply focus_index0.
    + intros u. apply focus_opt_get.
Qed.

Lemma get_update_delta g data k :
  (get (update_delta g data) k = None) <-> (get data k = None).
Proof. destruct data; cbn; split; congruence. Qed.

Lemma assoc_del_twice k f : assoc_del k (assoc_del k f) = assoc_del k f.
Proof.
  induction f as [|[k' y] f IH]; cbn [assoc_del]; [reflexivity|].
  destruct (String.eqb k' k) eqn:E; [exact IH|].
  cbn [assoc_del]. rewrite E. now rewrite IH.
Qed.

Lemma assoc_del_set_del k c x f :
  String.eqb k c = false ->
  assoc_del k (assoc_set c x (assoc_del k f)) = assoc_del k (assoc_set c x f).
Proof.
  intros Hne. induction f as [|[k' y] f IH]; cbn [assoc_del assoc_set].
  - reflexivity.
  - destruct (String.eqb k' k) eqn:Ek.
    + apply String.eqb_eq in Ek. subst k'. rewrite Hne.
      cbn [assoc_del]. rewrite String.eqb_refl. exact IH.
    + cbn [assoc_set]. destruct (String.eqb k' c) eqn:Ec.
      * cbn [assoc_del]. rewrite Ek. now rewrite assoc_del_twice.
      * cbn [assoc_del]. rewrite Ek. now rewrite IH.
Qed.

(** *** What a change of the first delta leaves alone *)

Lemma assoc_update_other t k g f :
  String.eqb t k = false -> assoc k (assoc_update t g f) = assoc k f.
Proof.
  intros Hne. induction f as [|[k0 x] f IH]; cbn [assoc assoc_update];
    [reflexivity|].
  destruct (String.eqb k0 t) eqn:E; cbn [assoc].
  - apply String.eqb_eq in E. subst k0. now rewrite Hne.
  - now rewrite IH.
Qed.

Lemma member_update_field_other t k g v :
  String.eqb t k = false -> member (update_field t g v) k = member v k.
Proof.
  intros Hne. destruct v as [| |b|n|s|l|f]; try reflexivity.
  cbn [update_field member]. now rewrite assoc_update_other.
Qed.

(** Every property of the event but [choices] is as it was. *)
Lemma update_delta_other_fields g data k :
  String.eqb "choices" k = false ->
  member (update_delta g data) k = member data k.
Proof. intros H. unfold update_delta. now apply member_update_field_other. Qed.

(** Of an array of choices only the first is touched, and of the first
    only its [delta]. *)
Lemma update_delta_choices g data c0 rest :
  member data "choices" = JArr (c0 :: rest) ->
  member (update_delta g data) "choices"
  = JArr (update_field "delta" g c0 :: rest).
Proof.
  intros H. apply JSFacts.member_array in H. destruct H as (f & -> & Hf).
  unfold update_delta. cbn [update_field member].
  now rewrite (JSFacts.assoc_update_same _ _ _ _ Hf).
Qed.

(** A change that leaves everything but objects alone does nothing to an
    event whose first delta is no object. *)
Lemma update_delta_no_object g data :
  (forall fields, first_delta data <> JObj fields) ->
  (forall d, (forall fields, d <> JObj fields) -> g d = d) ->
  update_delta g data = data.
Proof.
  intros Hd Hg.
  destruct (focus_delta data) as [Hmiss | (_ & _ & _ & Hid)];
    [apply Hmiss | apply Hid, Hg, Hd].
Qed.

Lemma with_content_no_object c d :
  (forall fields, d <> JObj fields) -> with_content c d = d.
Proof.
  intros H. destruct d as [| |b|n|s|l|f]; try reflexivity. now destruct (H f).
Qed.

End DeltaFacts.

(** ** The streaming transformer *)

Module StreamFacts.
Import JS Stream Notions.

Section Lines.

Variable Number_toString : spec_float -> string.
Variable JSON_parse : string -> option value.

Abbreviation process_line := (Stream.process_line Number_toString JSON_parse).
Abbreviation process_lines := (Stream.process_lines Number_toString JSON_parse).
Abbreviation on_text := (Stream.on_text Number_toString JSON_parse).
Abbreviation on_data := (Stream.on_data Number_toString JSON_parse).
Abbreviation run := (Stream.run Number_toString JSON_parse).

(** Lines are handled one after the other, the flag passed along. *)
Lemma process_lines_app (show started : bool) (l1 l2 : list string) :
  process_lines show started (l1 ++ l2)
  = let (w1, s1) := process_lines show started l1 in
    let (w2, s2) := process_lines show s1 l2 in
    (w1 ++ w2, s2).
Proof.
  revert started. induction l1 as [|l l1 IH]; intros started; cbn [app].
  - cbn [Stream.process_lines]. now destruct (process_lines show started l2).
  - cbn [Stream.process_lines].
    destruct (process_line show started l) as [w s].
    rewrite IH.
    destruct (process_lines show s l1) as [w1 s1].
    destruct (process_lines show s1 l2) as [w2 s2].
    now rewrite List.app_assoc.
Qed.

Lemma complete_lines_app (x y : string) :
  complete_lines (x +:+ y)
  = complete_lines x ++ complete_lines (fragment x +:+ y).
Proof.
  unfold complete_lines, fragment. rewrite StrFacts.split_nl_app.
  apply removelast_app, StrFacts.split_nl_not_nil.
Qed.

Lemma fragment_app (x y : string) :
  fragment (x +:+ y) = fragment (fragment x +:+ y).
Proof.
  unfold fragment. rewrite StrFacts.split_nl_app.
  apply StrFacts.last_app_ne, StrFacts.split_nl_not_nil.
Qed.

(** Text that arrives in two pieces is handled like the same text
    arriving at once: the unfinished line waits in the buffer. *)
Lemma on_text_app (show : bool) (st : state) (a b : string) :
  on_text show st (a +:+ b)
  = let (w1, st1) := on_text show st a in
    let (w2, st2) := on_text show st1 b in
    (w1 ++ w2, st2).
Proof.
  unfold Stream.on_text. rewrite StrFacts.app_assoc.
  rewrite (complete_lines_app (buffer st +:+ a) b).
  rewrite (fragment_app (buffer st +:+ a) b).
  rewrite process_lines_app.
  destruct (process_lines show (reasoningStarted st)
              (complete_lines (buffer st +:+ a))) as [w1 s1].
  cbn [buffer reasoningStarted].
  destruct (process_lines show s1
              (complete_lines (fragment (buffer st +:+ a) +:+ b))) as [w2 s2].
  reflexivity.
Qed.

(** A stream of chunks is handled like the concatenation of their
    decodings arriving as one text. *)
Lemma run_on_text (show : bool) (st : state) (c : string) (cs : list string) :
  run show st (c :: cs) = on_text show st (decoded (c :: cs)).
Proof.
  revert st c. induction cs as [|c' cs IH]; intros st c.
  - cbn [Stream.run decoded map fold_right]. unfold Stream.on_data.
    rewrite StrFacts.app_nil_r.
    destruct (on_text show st (Utf8.Buffer_toString c)) as [w st1].
    now rewrite List.app_nil_r.
  - change (run show st (c :: c' :: cs))
      with (let (w1, st1) := on_data show st c in
            let (w2, st2) := run show st1 (c' :: cs) in (w1 ++ w2, st2)).
    change (decoded (c :: c' :: cs))
      with (Utf8.Buffer_toString c +:+ decoded (c' :: cs)).
    rewrite on_text_app. unfold Stream.on_data.
    destruct (on_text show st (Utf8.Buffer_toString c)) as [w1 st1].
    rewrite IH. reflexivity.
Qed.

(** Re-splitting is harmless whenever decoding the chunks one by one
    gives the decoding of the whole. *)
Lemma run_joined (show : bool) (st : state) (c : string) (cs : list string) :
  Utf8.Buffer_toString (joined (c :: cs)) = decoded (c :: cs) ->
  run show st (c :: cs) = on_data show st (joined (c :: cs)).
Proof.
  intros H. rewrite run_on_text. unfold Stream.on_data. now rewrite H.
Qed.

Lemma decoded_joined (c : string) (cs : list string) :
  cut_between_characters (c :: cs) = true ->
  Utf8.Buffer_toString (joined (c :: cs)) = decoded (c :: cs).
Proof.
  revert c. induction cs as [|c' cs IH]; intros c H.
  - unfold joined, decoded. cbn [map fold_right].
    now rewrite !StrFacts.app_nil_r.
  - cbn [cut_between_characters] in H. apply andb_true_iff in H.
    destruct H as [Hc Hcs].
    change (joined (c :: c' :: cs)) with (c +:+ joined (c' :: cs)).
    change (decoded (c :: c' :: cs))
      with (Utf8.Buffer_toString c +:+ decoded (c' :: cs)).
    rewrite (Utf8Facts.Buffer_toString_app _ _ Hc). now rewrite IH.
Qed.

(** A stream cut into chunks between characters (anywhere else: inside
    the "data:" prefix, inside a JSON payload, inside a line break
    sequence) gives the writes and the final state of the same bytes
    arriving as one chunk. *)
Theorem resplitting_between_characters (show : bool) (st : state)
    (c : string) (cs : list string) :
  cut_between_characters (c :: cs) = true ->
  run show st (c :: cs) = on_data show st (joined (c :: cs)).
Proof. intros H. apply run_joined. now apply decoded_joined. Qed.

End Lines.

Section Deltas.

Variable Number_toString : spec_float -> string.

Abbreviation ToString := (JS.ToString Number_toString).
Abbreviation add := (JS.add Number_toString).
Abbreviation transform := (Stream.transform Number_toString).

(** When the first choice has a delta object, [data] is an object and a
    change of the delta is what [data.choices?.[0]?.delta] reads next. *)
Lemma first_delta_update (g : value -> value) (data : value) fields :
  first_delta data = JObj fields ->
  get data "choices" = Some (member data "choices")
  /\ first_delta (update_delta g data) = g (JObj fields).
Proof.
  unfold first_delta. intros H.
  apply JSFacts.opt_get_object in H. destruct H as (f3 & H0 & Hd).
  apply JSFacts.opt_index0_object in H0.
  destruct H0 as [[l Hc] | (f0 & Hc & H0)].
  - pose proof Hc as Hc'.
    apply JSFacts.member_array in Hc. destruct Hc as (f & -> & Hf).
    split; [reflexivity|].
    unfold update_delta. cbn [update_field member].
    rewrite (JSFacts.assoc_update_same _ _ _ _ Hf).
    cbn [update_index0 update_field opt_index0 opt_get member].
    now rewrite (JSFacts.assoc_update_same _ _ _ _ Hd).
  - pose proof Hc as Hc'.
    apply JSFacts.member_object in Hc. destruct Hc as (f & -> & Hf).
    split; [reflexivity|].
    unfold update_delta. cbn [update_field member].
    rewrite (JSFacts.assoc_update_same _ _ _ _ Hf).
    cbn [update_index0 opt_index0].
    rewrite (JSFacts.assoc_update_same _ _ _ _ H0).
    cbn [update_field opt_get member].
    now rewrite (JSFacts.assoc_update_same _ _ _ _ Hd).
Qed.

(** What the rewritten delta holds. *)
Lemma rewritten_delta (x : value) fields :
  exists fields',
    delete_field "reasoning_content" (set_field "content" x (JObj fields))
    = JObj fields'
    /\ assoc "reasoning_content" fields' = None
    /\ assoc "content" fields' = Some x.
Proof.
  eexists. split; [reflexivity|]. split.
  - apply JSFacts.assoc_del_same.
  - rewrite JSFacts.assoc_del_other by reflexivity.
    apply JSFacts.assoc_set_same.
Qed.

(** Only an object can hold content. *)
Lemma truthy_member_object (v : value) (k : string) :
  truthy (member v k) = true -> exists fields, v = JObj fields.
Proof.
  destruct v as [| |b|n|s|l|f]; cbn; try congruence. intros _. now exists f.
Qed.

(** *** The additions *)

Lemma add_empty (v : value) :
  add (JStr EmptyString) v
  = match ToString v with
    | Some s => Some (JStr s)
    | None => None
    end.
Proof. unfold JS.add. now destruct (ToString v). Qed.

Lemma add_defined (a b c : value) : add a b = Some c -> c <> JUndefined.
Proof.
  unfold JS.add.
  destruct a, b; try (intros [= <-]; discriminate);
    match goal with
    | |- context [match ?x with Some _ => _ | None => _ end] =>
        destruct x; try discriminate
    end;
    try match goal with
    | |- context [match ?x with Some _ => _ | None => _ end] =>
        destruct x; try discriminate
    end; intros [= <-]; discriminate.
Qed.

Lemma add_succeeds (a b : value) :
  ToString a <> None -> ToString b <> None -> exists c, add a b = Some c.
Proof.
  intros Ha Hb. unfold JS.add.
  destruct (ToString a) as [x|] eqn:Ea; [|contradiction].
  destruct (ToString b) as [y|] eqn:Eb; [|contradiction].
  destruct a, b; eauto.
Qed.

(** *** What the transformer writes for an event *)

(** The writes are a closing event or none, and then the event with its
    first delta rewritten or, when an addition threw, nothing. *)
Lemma transform_written (show started : bool) (data : value)
    (ws : list write) (started' : bool) :
  transform show started data = Some (ws, started') ->
  exists closing,
    (closing = [] \/ closing = [WData (closing_before_content data)])
    /\ ((ws = closing /\ show = true)
        \/ exists c,
             ws = closing ++ [WData (update_delta (with_content c) data)]
             /\ c <> JUndefined
             /\ (truthy (member (first_delta data) "content") = false ->
                 show = false
                 \/ truthy (member (first_delta data) "reasoning_content")
                    = false ->
                 c = JStr EmptyString)).
Proof.
  unfold Stream.transform.
  destruct (get data "choices"); [|discriminate].
  destruct (truthy (first_delta data)) eqn:Hd.
  2:{ intros [= <- <-]. exists []. split; [now left|]. right.
      exists (JStr EmptyString). repeat split; [|discriminate].
      rewrite DeltaFacts.update_delta_no_object; [reflexivity| |].
      - intros fields E. now rewrite E in Hd.
      - intros d. apply DeltaFacts.with_content_no_object. }
  set (reasoning := member (first_delta data) "reasoning_content").
  set (content := member (first_delta data) "content").
  destruct show.
  - set (closes := started && negb (truthy reasoning) && truthy content).
    set (closing := if closes then [WData (closing_before_content data)]
                    else []).
    assert (Hclosing : closing = []
                       \/ closing = [WData (closing_before_content data)]).
    { subst closing. destruct closes; auto. }
    set (started1 := if closes then false else started).
    set (opens := truthy reasoning && negb started1).
    destruct (if opens
              then match ToString reasoning with
                   | Some r => Some (JStr (OPEN_MARKER +:+ r))
                   | None => None
                   end
              else if truthy reasoning then Some reasoning
              else Some (JStr EmptyString)) as [combined0|] eqn:E0.
    2:{ intros [= <- <-]. exists closing. split; [exact Hclosing|]. now left. }
    destruct (if truthy content then add combined0 content
              else Some combined0) as [combined|] eqn:E1.
    2:{ intros [= <- <-]. exists closing. split; [exact Hclosing|]. now left. }
    intros [= <- <-]. exists closing. split; [exact Hclosing|]. right.
    exists combined. split; [reflexivity|]. split.
    + destruct (truthy content) eqn:Hc.
      * exact (add_defined _ _ _ E1).
      * injection E1 as <-. destruct opens.
        -- destruct (ToString reasoning); [|discriminate].
           injection E0 as <-. discriminate.
        -- destruct (truthy reasoning) eqn:Hr; injection E0 as <-;
             [|discriminate].
           intros E. rewrite E in Hr. discriminate.
    + intros Hc [Hshow | Hr]; [discriminate|].
      rewrite Hc in E1. injection E1 as <-.
      subst opens. rewrite Hr in E0. cbn [andb] in E0. now injection E0 as <-.
  - intros [= <- <-]. exists []. split; [now left|]. right.
    exists (or_else content (JStr EmptyString)). split; [reflexivity|]. split.
    + unfold or_else. destruct (truthy content) eqn:Hc; [|discriminate].
      intros E. rewrite E in Hc. discriminate.
    + intros Hc _. unfold or_else. now rewrite Hc.
Qed.

(** The event is written whenever its texts can be added: always with
    trace display disabled. *)
Lemma transform_forwards (show started : bool) (data : value) :
  get data "choices" <> None ->
  show = false
  \/ (ToString (member (first_delta data) "reasoning_content") <> None
      /\ ToString (member (first_delta data) "content") <> None) ->
  exists closing data' started',
    transform show started data = Some (closing ++ [WData data'], started').
Proof.
  intros Hg Hs. unfold Stream.transform.
  destruct (get data "choices"); [|contradiction].
  destruct (truthy (first_delta data)); [|now exists [], data, started].
  set (reasoning := member (first_delta data) "reasoning_content") in *.
  set (content := member (first_delta data) "content") in *.
  destruct show; [|now eexists [], _, _].
  destruct Hs as [Hs | [Hr Hc]]; [discriminate|].
  set (closes := started && negb (truthy reasoning) && truthy content).
  set (started1 := if closes then false else started).
  set (opens := truthy reasoning && negb started1).
  assert (H0 : exists combined0,
             (if opens
              then match ToString reasoning with
                   | Some r => Some (JStr (OPEN_MARKER +:+ r))
                   | None => None
                   end
              else if truthy reasoning then Some reasoning
              else Some (JStr EmptyString)) = Some combined0
             /\ ToString combined0 <> None).
  { destruct opens.
    - destruct (ToString reasoning) as [r|]; [|contradiction].
      eexists. split; [reflexivity | discriminate].
    - destruct (truthy reasoning); eexists; split; try reflexivity;
        [exact Hr | discriminate]. }
  destruct H0 as (combined0 & -> & H0).
  assert (H1 : exists combined,
             (if truthy content then add combined0 content
              else Some combined0) = Some combined).
  { destruct (truthy content); [|eauto]. now apply add_succeeds. }
  destruct H1 as (combined & ->). eauto.
Qed.



End Deltas.

Section Framing.

Variable Number_toString : spec_float -> string.
Variable JSON_parse : string -> option value.

Abbreviation transform' := (Stream.transform Number_toString).
Abbreviation process_line' := (Stream.process_line Number_toString JSON_parse).
Abbreviation process_lines' := (Stream.process_lines Number_toString JSON_parse).
Abbreviation on_text' := (Stream.on_text Number_toString JSON_parse).
Abbreviation run' := (Stream.run Number_toString JSON_parse).

(** *** A reasoning section is only ever open with trace display enabled *)

Lemma transform_started (show started : bool) data ws started' :
  transform' show started data = Some (ws, started') ->
  started' = true -> show = true \/ started = true.
Proof.
  intros H Hs. destruct show; [now left|]. right.
  unfold Stream.transform in H.
  destruct (get data "choices"); [|discriminate].
  destruct (truthy (first_delta data)); congruence.
Qed.

Lemma process_line_started (show started : bool) l ws started' :
  process_line' show started l = (ws, started') ->
  started' = true -> show = true \/ started = true.
Proof.
  unfold Stream.process_line.
  destruct (negb (Str.startsWith (Str.strip_cr l) "data:")).
  { intros [= _ <-]. now right. }
  destruct (Str.includes (Str.strip_cr l) "[DONE]").
  { destruct (show && started) eqn:E; intros [= _ <-]; [discriminate|].
    now right. }
  destruct (JSON_parse (payload (Str.strip_cr l))) as [data|].
  2:{ intros [= _ <-]. now right. }
  destruct (transform' show started data) as [[w s]|] eqn:E.
  - intros [= _ <-]. eapply transform_started; eassumption.
  - intros [= _ <-]. now right.
Qed.

Lemma process_lines_started (show started : bool) ls ws started' :
  process_lines' show started ls = (ws, started') ->
  started' = true -> show = true \/ started = true.
Proof.
  revert started ws. induction ls as [|l ls IH]; intros started ws.
  - cbn [Stream.process_lines]. intros [= _ <-]. now right.
  - cbn [Stream.process_lines].
    destruct (process_line' show started l) as [w1 s1] eqn:E1.
    destruct (process_lines' show s1 ls) as [w2 s2] eqn:E2.
    intros [= _ <-] Hs.
    destruct (IH _ _ E2 Hs) as [|H1]; [now left|].
    eapply process_line_started; eassumption.
Qed.

Lemma run_started (show : bool) st chunks ws st' :
  run' show st chunks = (ws, st') ->
  reasoningStarted st' = true -> show = true \/ reasoningStarted st = true.
Proof.
  revert st ws. induction chunks as [|c cs IH]; intros st ws.
  - cbn [Stream.run]. intros [= _ <-]. now right.
  - cbn [Stream.run]. unfold Stream.on_data, Stream.on_text.
    destruct (process_lines' show (reasoningStarted st)
                (complete_lines (buffer st +:+ Utf8.Buffer_toString c)))
      as [w1 s1] eqn:E1.
    match goal with
    | |- context [run' show ?st1 cs] =>
        destruct (run' show st1 cs) as [w2 st2] eqn:E2
    end.
    intros [= _ <-] Hs.
    destruct (IH _ _ E2 Hs) as [|H1]; [now left|].
    cbn [reasoningStarted] in H1.
    eapply process_lines_started; eassumption.
Qed.

(** With the constant of the source ([SHOW_REASONING = false]) no
    reasoning section is ever open. *)
Lemma shipped_configuration_never_opens (chunks : list string)
    (ws : list write) (st : state) :
  run' SHOW_REASONING init chunks = (ws, st) -> reasoningStarted st = false.
Proof.
  intros Hrun. destruct (reasoningStarted st) eqn:Hs; [|reflexivity].
  destruct (run_started _ _ _ _ _ Hrun Hs) as [H | H]; discriminate H.
Qed.

(** C10.  In every state a stream can reach, a line that starts with
    "data:" and has "[DONE]" anywhere in it is taken as the end of the
    stream: if a reasoning section is open, the closing event is written,
    whose only choice has index 0 and a delta that holds nothing but the
    closing marker (the text "</think>" and two line feeds); then
    "data: [DONE]" is written, and the section is closed.  The line is not
    parsed and nothing of it is forwarded, whatever else it holds. *)
Theorem done_anywhere_ends_the_stream (show : bool) (chunks : list string)
    (ws : list write) (st : state) (rawLine : string) :
  run' show init chunks = (ws, st) ->
  Str.startsWith (Str.strip_cr rawLine) "data:" = true ->
  Str.includes (Str.strip_cr rawLine) "[DONE]" = true ->
  process_line' show (reasoningStarted st) rawLine
  = ((if reasoningStarted st
      then [WData
              (JObj [("choices",
                      JArr [JObj [("index", JNum (S754_zero false));
                                  ("delta",
                                   JObj [("content",
                                          JStr ("</think>"
                                                  +:+ String "010"
                                                        (String "010"
                                                           EmptyString)))])]])])]
      else []) ++ [WDone],
     false).
Proof.
  intros Hrun Hdata Hdone. unfold Stream.process_line.
  rewrite Hdata, Hdone. cbn [negb].
  destruct (reasoningStarted st) eqn:Hs.
  - destruct (run_started _ _ _ _ _ Hrun Hs) as [-> | H]; [reflexivity|].
    discriminate H.
  - now rewrite andb_false_r.
Qed.

(** C9, as amended.  A line that starts with "data:", does not contain
    "[DONE]" and whose payload [JSON.parse] rejects writes nothing and
    leaves the flag as it is; the lines around it are handled as if it were
    not there, and once it is complete the buffer is empty again and the
    rest of the text is handled as from a fresh buffer with the same
    flag. *)
Theorem malformed_line_is_dropped (show : bool) (rawLine : string) :
  Str.startsWith (Str.strip_cr rawLine) "data:" = true ->
  Str.includes (Str.strip_cr rawLine) "[DONE]" = false ->
  JSON_parse (payload (Str.strip_cr rawLine)) = None ->
  (forall started, process_line' show started rawLine = ([], started))
  /\ (forall started before after,
        process_lines' show started (before ++ rawLine :: after)
        = process_lines' show started (before ++ after))
  /\ (forall st part rest,
        buffer st +:+ part = rawLine ->
        Str.includes rawLine Str.LF = false ->
        on_text' show st (part +:+ Str.LF +:+ rest)
        = on_text' show {| buffer := EmptyString;
                           reasoningStarted := reasoningStarted st |} rest).
Proof.
  intros Hdata Hdone Hparse.
  assert (Hline : forall started,
             process_line' show started rawLine = ([], started)).
  { intros started. unfold Stream.process_line.
    now rewrite Hdata, Hdone, Hparse. }
  split; [exact Hline|]. split.
  - intros started before after.
    rewrite !(process_lines_app Number_toString JSON_parse).
    destruct (process_lines' show started before) as [w1 s1].
    cbn [Stream.process_lines]. rewrite Hline.
    now destruct (process_lines' show s1 after).
  - intros st part rest Hbuf Hnl. unfold Stream.on_text.
    cbn [buffer reasoningStarted].
    rewrite StrFacts.app_assoc, Hbuf, StrFacts.app_nil_l.
    unfold complete_lines, fragment.
    rewrite (StrFacts.split_nl_line rawLine rest Hnl).
    pose proof (StrFacts.split_nl_not_nil rest) as Hne.
    destruct (Str.split_nl rest) as [|h t] eqn:E; [contradiction|].
    cbn [removelast List.last Stream.process_lines].
    rewrite Hline. cbn [app].
    match goal with
    | |- context [process_lines' show ?s0 ?ls] =>
        destruct (process_lines' show s0 ls)
    end.
    reflexivity.
Qed.

End Framing.

(** *** Closed examples *)


(** The counterexample to C9 as stated: an event line cut off in the
    middle of its JSON text, which [JSON.parse] rejects (as it rejects the
    payload of "data: [DONE]" itself), is not dropped when it contains
    "[DONE]": it is answered with "data: [DONE]", and with a reasoning
    section open it also writes the closing marker and closes the
    section. *)
Lemma done_line_is_not_dropped :
  Str.startsWith (Str.strip_cr Demo.truncated_event) "data:" = true
  /\ Demo.parse (payload (Str.strip_cr Demo.truncated_event)) = None
  /\ Stream.process_line Demo.number_text Demo.parse false false
       Demo.truncated_event
     = ([WDone], false)
  /\ Stream.process_line Demo.number_text Demo.parse true true
       Demo.truncated_event
     = ([WData closing_at_end; WDone], false)
  /\ Demo.parse (payload (Str.strip_cr "data: [DONE]")) = None
  /\ Stream.process_line Demo.number_text Demo.parse true true "data: [DONE]"
     = ([WData closing_at_end; WDone], false).
Proof. repeat split. Qed.



(** C9 (amended) at a truncated event. *)
Lemma malformed_line_is_dropped_witness :
  Stream.process_line Demo.number_text Demo.parse true true "data: {broken"
  = ([], true).
Proof.
  exact (proj1 (malformed_line_is_dropped Demo.number_text Demo.parse true
                  "data: {broken" eq_refl eq_refl eq_refl) true).
Defined.

(** C10 at an ordinary event whose content is "[DONE]", after a chunk
    that opened a reasoning section. *)
Lemma done_anywhere_ends_the_stream_witness :
  Stream.process_line Demo.number_text Demo.parse true true
    Demo.done_as_content
  = ([WData
        (JObj [("choices",
                JArr [JObj [("index", JNum (S754_zero false));
                            ("delta",
                             JObj [("content",
                                    JStr ("</think>"
                                            +:+ String "010"
                                                  (String "010"
                                                     EmptyString)))])]])]);
      WDone], false).
Proof.
  exact (done_anywhere_ends_the_stream Demo.number_text Demo.parse true
           ["data: " +:+ Demo.reasoning_a_text +:+ Str.LF]
           [WData (Demo.event_with_delta
                     [("content", JStr (OPEN_MARKER +:+ "a"))])]
           {| buffer := EmptyString; reasoningStarted := true |}
           Demo.done_as_content eq_refl eq_refl eq_refl).
Defined.

(** The event with content "c" cut inside the prefix and inside the
    payload. *)
Lemma resplitting_between_characters_witness :
  Stream.run Demo.number_text Demo.parse false init Demo.three_chunks
  = Stream.on_data Demo.number_text Demo.parse false init
      (joined Demo.three_chunks).
Proof.
  apply (resplitting_between_characters Demo.number_text Demo.parse false
           init "da" (tl Demo.three_chunks)).
  reflexivity.
Defined.

(** The stream of reasoning "a", reasoning "b", content "c" from its
    bytes, with trace display enabled: one opening marker, the closing
    marker as an event of its own, and the texts in order. *)
Example trace_bracketing_end_to_end :
  Stream.on_data Demo.number_text Demo.parse true init Demo.stream_abc
  = ([ WData (Demo.event_with_delta [("content", JStr (OPEN_MARKER +:+ "a"))]);
       WData (Demo.event_with_delta [("content", JStr "b")]);
       WData (closing_before_content Demo.content_c);
       WData (Demo.event_with_delta [("content", JStr "c")]) ],
     init).
Proof. vm_compute. reflexivity. Qed.

(** The stream of the three events under the constant of the source:
    the reasoning is dropped and no marker is written. *)
Lemma shipped_configuration_never_opens_witness :
  reasoningStarted
    (Stream.run Demo.number_text Demo.parse SHOW_REASONING init
       [Demo.stream_abc]).2
  = false.
Proof.
  exact (shipped_configuration_never_opens Demo.number_text Demo.parse
           [Demo.stream_abc] _ _ eq_refl).
Defined.

(** *** Chunk boundaries inside a character *)

(** Whatever [JSON.parse] does: when the chunk boundary falls inside the
    two-byte character, the line that is parsed holds two replacement
    characters in its place. *)
Lemma split_inside_a_character_changes_the_line
    (Number_toString : spec_float -> string)
    (JSON_parse : string -> option value) (show : bool) :
  Stream.run Number_toString JSON_parse show init
    [Demo.chunk_1 +:+ Demo.chunk_2]
  = Stream.on_text Number_toString JSON_parse show init
      ("data: " +:+ Demo.event_text Demo.e_acute +:+ Str.LF)
  /\ Stream.run Number_toString JSON_parse show init
       [Demo.chunk_1; Demo.chunk_2]
     = Stream.on_text Number_toString JSON_parse show init
         ("data: " +:+ Demo.event_text Demo.two_replacements +:+ Str.LF)
  /\ Demo.event_text Demo.e_acute <> Demo.event_text Demo.two_replacements.
Proof.
  split; [|split].
  - rewrite run_on_text. reflexivity.
  - rewrite run_on_text. reflexivity.
  - intros H. vm_compute in H. discriminate H.
Qed.

(** C2 at the failing input: the same bytes give the content U+00E9 when
    they arrive as one chunk, and two replacement characters when the
    chunk boundary falls between the two bytes of the character. *)
Theorem split_inside_a_character_changes_the_output :
  Stream.run Demo.number_text Demo.parse false init
    [Demo.chunk_1 +:+ Demo.chunk_2]
  = ([WData (Demo.event_with_delta [("content", JStr Demo.e_acute)])], init)
  /\ Stream.run Demo.number_text Demo.parse false init
       [Demo.chunk_1; Demo.chunk_2]
     = ([WData (Demo.event_with_delta
                  [("content", JStr Demo.two_replacements)])], init).
Proof. split; vm_compute; reflexivity. Qed.

End StreamFacts.

(** ** The non-streaming response builder *)

Module BuilderFacts.
Import JS Builder.

Section Extraction.

Variable Number_toString : spec_float -> string.

Abbreviation build_choice := (Builder.build_choice Number_toString).
Abbreviation outbound_choice := (Builder.outbound_choice).

(** The regular expression on a content that opens with the marker and
    has its first closing marker after [inner]. *)
Lemma think_match_app (inner tail : string) :
  Str.includes inner "</think>" = false ->
  think_match ("<think>" +:+ inner +:+ "</think>" +:+ tail)
  = Some (inner, Str.trimStart tail).
Proof.
  intros H. unfold think_match. rewrite StrFacts.strip_prefix_app.
  change "</think>" with (String "<"%char "/think>") in *.
  now rewrite StrFacts.split_at_first_app.
Qed.


End Extraction.


End BuilderFacts.

(** ** Model resolution *)

Module ResolverFacts.
Import Resolver Notions.

Section Resolving.

Variable toLowerCase : string -> string.

Abbreviation fallback := (Resolver.fallback toLowerCase).
Abbreviation resolve_start := (Resolver.resolve_start toLowerCase).
Abbreviation resolve_finish := (Resolver.resolve_finish toLowerCase).
Abbreviation resolve := (Resolver.resolve toLowerCase).
Abbreviation step := (Resolver.step toLowerCase).
Abbreviation schedule := (Resolver.schedule toLowerCase).


(** Resolving a name a second time, right after the first time, gives the
    same model without a probe, whatever a probe would answer. *)
Theorem resolving_twice (verifiedModels cache1 : gmap string (option string))
    (model : string) (r r' : probe_result) (nimModel : nim_model) (n : nat) :
  resolve verifiedModels model r = (cache1, nimModel, n) ->
  resolve cache1 model r' = (cache1, nimModel, 0).
Proof.
  unfold Resolver.resolve.
  destruct (resolve_start verifiedModels model) as [m|] eqn:E.
  - intros [= <- <- _]. now rewrite E.
  - unfold Resolver.resolve_start in E.
    destruct (mapped model) eqn:Hmap; [discriminate|].
    unfold Resolver.resolve_finish.
    destruct (probe_ok r); intros [= <- <- _];
      unfold Resolver.resolve_start; rewrite Hmap, lookup_insert_eq;
      reflexivity.
Qed.

(** *** The cache only grows *)

Lemma remove_one_In (m : string) (l r : list string) :
  remove_one m l = Some r -> In m l /\ (forall x, In x r -> In x l).
Proof.
  revert r. induction l as [|a l IH]; intros r; cbn [remove_one];
    [discriminate|].
  destruct (String.eqb a m) eqn:E.
  - apply String.eqb_eq in E. subst a. intros [= <-].
    split; [now left | intros x Hx; now right].
  - destruct (remove_one m l) as [r'|]; [|discriminate].
    intros [= <-]. destruct (IH r' eq_refl) as [Hm Hsub].
    split; [now right|].
    intros x [-> | Hx]; [now left | right; now apply Hsub].
Qed.

Lemma step_suspended_unmapped st e st' o :
  suspended_unmapped st -> step st e = Some (st', o) ->
  suspended_unmapped st'.
Proof.
  unfold suspended_unmapped. intros Hinv Hstep.
  destruct e as [model | model r]; cbn [Resolver.step] in Hstep.
  - destruct (resolve_start (verified st) model) eqn:E.
    + injection Hstep as <- _. exact Hinv.
    + injection Hstep as <- _. cbn [suspended].
      intros m [<- | Hm]; [|now apply Hinv].
      unfold Resolver.resolve_start in E.
      destruct (mapped model); [discriminate | reflexivity].
  - destruct (remove_one model (suspended st)) as [rest|] eqn:E;
      [|discriminate].
    destruct (resolve_finish (verified st) model r) as [c m].
    injection Hstep as <- _. cbn [suspended].
    intros x Hx. apply Hinv. now apply (remove_one_In _ _ _ E).
Qed.

Lemma schedule_suspended_unmapped es st st' os :
  suspended_unmapped st -> schedule st es = Some (st', os) ->
  suspended_unmapped st'.
Proof.
  revert st os. induction es as [|e es IH]; intros st os Hinv;
    cbn [Resolver.schedule].
  - now intros [= <- _].
  - destruct (step st e) as [[st1 o]|] eqn:E; [|discriminate].
    destruct (schedule st1 es) as [[st2 os']|] eqn:E'; [|discriminate].
    intros [= <- _]. eapply IH; [|exact E'].
    eapply step_suspended_unmapped; eassumption.
Qed.

(** When a resolution is done, a resolution of the same name that starts
    in the state it leaves gets the same model without a probe. *)
Lemma step_done_settles st e st1 model nimModel n :
  suspended_unmapped st ->
  step st e = Some (st1, Done model nimModel n) ->
  resolve_start (verified st1) model = Resolved nimModel.
Proof.
  intros Hinv Hstep.
  destruct e as [model' | model' r]; cbn [Resolver.step] in Hstep.
  - destruct (resolve_start (verified st) model') eqn:E; [|discriminate].
    now injection Hstep as <- <- <- _.
  - destruct (remove_one model' (suspended st)) as [rest|] eqn:E;
      [|discriminate].
    apply remove_one_In in E. destruct E as [Hin _].
    apply Hinv in Hin.
    unfold Resolver.resolve_finish in Hstep.
    destruct (probe_ok r); injection Hstep as <- <- <- _;
      cbn [verified]; unfold Resolver.resolve_start;
      rewrite Hin, lookup_insert_eq; reflexivity.
Qed.

(** A name that resolves without a probe keeps doing so. *)
Lemma step_keeps_probe_free st e st' o model :
  (exists m, resolve_start (verified st) model = Resolved m) ->
  step st e = Some (st', o) ->
  exists m, resolve_start (verified st') model = Resolved m.
Proof.
  intros [m Hm] Hstep.
  destruct e as [model' | model' r]; cbn [Resolver.step] in Hstep.
  - destruct (resolve_start (verified st) model');
      injection Hstep as <- _; now exists m.
  - destruct (remove_one model' (suspended st)); [|discriminate].
    unfold Resolver.resolve_finish in Hstep.
    unfold Resolver.resolve_start in *.
    destruct (mapped model) as [b|]; [now exists b|].
    destruct (decide (model' = model)) as [-> | Hne].
    + destruct (probe_ok r); injection Hstep as <- _; cbn [verified];
        rewrite lookup_insert_eq; eauto.
    + destruct (probe_ok r); injection Hstep as <- _; cbn [verified];
        rewrite lookup_insert_ne by exact Hne; now exists m.
Qed.

(** With no resolution of the name suspended, its resolution stays what
    it is. *)
Lemma step_keeps_settled st e st' o model m :
  ~ In model (suspended st) ->
  resolve_start (verified st) model = Resolved m ->
  step st e = Some (st', o) ->
  ~ In model (suspended st')
  /\ resolve_start (verified st') model = Resolved m.
Proof.
  intros Hnot Hm Hstep.
  destruct e as [model' | model' r]; cbn [Resolver.step] in Hstep.
  - destruct (resolve_start (verified st) model') eqn:E;
      injection Hstep as <- _; [now split|].
    cbn [suspended verified]. split; [|exact Hm].
    intros [-> | Hin]; [congruence | contradiction].
  - destruct (remove_one model' (suspended st)) as [rest|] eqn:E;
      [|discriminate].
    apply remove_one_In in E. destruct E as [Hin Hsub].
    assert (Hne : model' <> model) by (intros ->; contradiction).
    unfold Resolver.resolve_finish in Hstep.
    destruct (probe_ok r); injection Hstep as <- _;
      cbn [suspended verified];
      (split; [intros Hx; apply Hnot; now apply Hsub|]);
      unfold Resolver.resolve_start in *;
      rewrite lookup_insert_ne by exact Hne; exact Hm.
Qed.

Lemma schedule_keeps_probe_free es st st' os model :
  (exists m, resolve_start (verified st) model = Resolved m) ->
  schedule st es = Some (st', os) ->
  exists m, resolve_start (verified st') model = Resolved m.
Proof.
  revert st os. induction es as [|e es IH]; intros st os Hm;
    cbn [Resolver.schedule].
  - now intros [= <- _].
  - destruct (step st e) as [[st1 o]|] eqn:E; [|discriminate].
    destruct (schedule st1 es) as [[st2 os']|] eqn:E'; [|discriminate].
    intros [= <- _]. eapply IH; [|exact E'].
    eapply step_keeps_probe_free; eassumption.
Qed.

Lemma schedule_keeps_settled es st st' os model m :
  ~ In model (suspended st) ->
  resolve_start (verified st) model = Resolved m ->
  schedule st es = Some (st', os) ->
  resolve_start (verified st') model = Resolved m.
Proof.
  revert st os. induction es as [|e es IH]; intros st os Hnot Hm;
    cbn [Resolver.schedule].
  - now intros [= <- _].
  - destruct (step st e) as [[st1 o]|] eqn:E; [|discriminate].
    destruct (schedule st1 es) as [[st2 os']|] eqn:E'; [|discriminate].
    intros [= <- _].
    destruct (step_keeps_settled _ _ _ _ _ _ Hnot Hm E) as [Hnot1 Hm1].
    eapply IH; eassumption.
Qed.

(** *** The cache holds names and [null] only *)

Lemma resolve_finish_well_formed
    (verifiedModels : gmap string (option string)) (model : string)
    (r : probe_result) :
  cache_well_formed verifiedModels -> mapped model = None ->
  cache_well_formed (resolve_finish verifiedModels model r).1.
Proof.
  intros Hwf Hmap k v. unfold Resolver.resolve_finish.
  destruct (probe_ok r); cbn [fst];
    (destruct (decide (k = model)) as [-> | Hne];
     [ rewrite lookup_insert_eq; intros [= <-]; split; auto
     | rewrite lookup_insert_ne by congruence; apply Hwf ]).
Qed.

Lemma step_well_formed (st st' : loop) (e : event) (o : observation) :
  cache_well_formed (verified st) -> suspended_unmapped st ->
  step st e = Some (st', o) ->
  cache_well_formed (verified st').
Proof.
  intros Hwf Hsus Hstep.
  destruct e as [model | model r]; cbn [Resolver.step] in Hstep.
  - destruct (resolve_start (verified st) model);
      injection Hstep as <- _; exact Hwf.
  - destruct (remove_one model (suspended st)) as [rest|] eqn:E;
      [|discriminate].
    apply remove_one_In in E. destruct E as [Hin _].
    pose proof (resolve_finish_well_formed (verified st) model r Hwf
                  (Hsus _ Hin)) as H.
    destruct (resolve_finish (verified st) model r) as [c m].
    injection Hstep as <- _. exact H.
Qed.

Lemma schedule_well_formed (es : list event) (st st' : loop)
    (os : list observation) :
  cache_well_formed (verified st) -> suspended_unmapped st ->
  schedule st es = Some (st', os) ->
  cache_well_formed (verified st').
Proof.
  revert st os. induction es as [|e es IH]; intros st os Hwf Hsus;
    cbn [Resolver.schedule].
  - now intros [= <- _].
  - destruct (step st e) as [[st1 o]|] eqn:E; [|discriminate].
    destruct (schedule st1 es) as [[st2 os']|] eqn:E'; [|discriminate].
    intros [= <- _].
    eapply IH; [| | exact E'].
    + eapply step_well_formed; eassumption.
    + eapply step_suspended_unmapped; eassumption.
Qed.

(** *** Probes that agree with the cache *)

Lemma recorded_verdict_insert
    (verifiedModels : gmap string (option string)) (model : string)
    (r : probe_result) :
  recorded_verdict (resolve_finish verifiedModels model r).1 model
  = probe_ok r.
Proof.
  unfold recorded_verdict, Resolver.resolve_finish.
  destruct (probe_ok r); cbn [fst]; now rewrite lookup_insert_eq.
Qed.

(** A step keeps the answer for [model], and every resolution of [model]
    it completes gives that answer, when the probe that returns, if it is
    one for [model], has the verdict the cache holds. *)
Lemma agreeing_step st e st' o model nimModel :
  suspended_unmapped st ->
  cache_well_formed (verified st) ->
  resolve_start (verified st) model = Resolved nimModel ->
  (forall r, e = ProbeReturns model r ->
             probe_ok r = recorded_verdict (verified st) model) ->
  step st e = Some (st', o) ->
  resolve_start (verified st') model = Resolved nimModel
  /\ recorded_verdict (verified st') model
     = recorded_verdict (verified st) model
  /\ (forall m k, o = Done model m k -> m = nimModel).
Proof.
  intros Hsus Hwf Hm Hagree Hstep.
  destruct e as [model' | model' r]; cbn [Resolver.step] in Hstep.
  - destruct (resolve_start (verified st) model') as [m'|] eqn:E.
    + injection Hstep as <- <-. repeat split; [exact Hm|].
      intros m k [= -> <- _]. congruence.
    + injection Hstep as <- <-. cbn [verified].
      repeat split; [exact Hm | discriminate].
  - destruct (remove_one model' (suspended st)) as [rest|] eqn:E;
      [|discriminate].
    apply remove_one_In in E. destruct E as [Hin _].
    pose proof (Hsus _ Hin) as Hun.
    destruct (decide (model' = model)) as [-> | Hne].
    + specialize (Hagree r eq_refl).
      unfold Resolver.resolve_start in Hm. rewrite Hun in Hm.
      unfold recorded_verdict in Hagree.
      destruct (verified st !! model) as [entry|] eqn:Hentry;
        [|discriminate].
      injection Hm as <-.
      destruct (Hwf _ _ Hentry) as [_ Hshape].
      assert (Hsame : (if probe_ok r then Some model else None) = entry).
      { destruct Hshape as [-> | ->]; now rewrite Hagree. }
      unfold Resolver.resolve_finish in Hstep.
      unfold recorded_verdict, Resolver.resolve_start. rewrite Hun, Hentry.
      destruct (probe_ok r); injection Hstep as <- <-; cbn [verified];
        rewrite lookup_insert_eq, <- Hsame; repeat split;
        now intros m k [= <- _].
    + unfold Resolver.resolve_finish in Hstep.
      unfold recorded_verdict, Resolver.resolve_start in *.
      destruct (probe_ok r); injection Hstep as <- <-; cbn [verified];
        rewrite lookup_insert_ne by exact Hne;
        (repeat split; [exact Hm|]); intros m k [= -> _]; contradiction.
Qed.

Lemma agreeing_schedule es st st' os model nimModel :
  suspended_unmapped st ->
  cache_well_formed (verified st) ->
  resolve_start (verified st) model = Resolved nimModel ->
  (forall r, In (ProbeReturns model r) es ->
             probe_ok r = recorded_verdict (verified st) model) ->
  schedule st es = Some (st', os) ->
  resolve_start (verified st') model = Resolved nimModel
  /\ (forall m k, In (Done model m k) os -> m = nimModel).
Proof.
  revert st os. induction es as [|e es IH]; intros st os Hsus Hwf Hm Hagree;
    cbn [Resolver.schedule].
  - intros [= <- <-]. split; [exact Hm | intros m k []].
  - destruct (step st e) as [[st1 o]|] eqn:E; [|discriminate].
    destruct (schedule st1 es) as [[st2 os']|] eqn:E'; [|discriminate].
    intros [= <- <-].
    destruct (agreeing_step _ _ _ _ _ _ Hsus Hwf Hm
                (fun r He => Hagree r (or_introl He)) E)
      as (Hm1 & Hv1 & Ho).
    destruct (IH st1 os' (step_suspended_unmapped _ _ _ _ Hsus E)
                (step_well_formed _ _ _ _ Hwf Hsus E) Hm1) as [Hm2 Hos];
      [|exact E'|].
    + intros r Hin. rewrite Hv1. apply Hagree. now right.
    + split; [exact Hm2|].
      intros m k [-> | Hin]; [now apply (Ho m k) | now apply (Hos m k)].
Qed.

(** With no resolution of the name suspended, no probe of it can return. *)
Lemma settled_names_have_no_probe es st st' os model m :
  ~ In model (suspended st) ->
  resolve_start (verified st) model = Resolved m ->
  schedule st es = Some (st', os) ->
  forall r, ~ In (ProbeReturns model r) es.
Proof.
  revert st os. induction es as [|e es IH]; intros st os Hnot Hm;
    cbn [Resolver.schedule]; [intros _ r []|].
  destruct (step st e) as [[st1 o]|] eqn:E; [|discriminate].
  destruct (schedule st1 es) as [[st2 os']|] eqn:E'; [|discriminate].
  intros [= <- _] r [-> | Hin].
  - cbn [Resolver.step] in E.
    destruct (remove_one model (suspended st)) as [rest|] eqn:Er;
      [|discriminate].
    apply remove_one_In in Er. now destruct Er.
  - destruct (step_keeps_settled _ _ _ _ _ _ Hnot Hm E) as [Hnot1 Hm1].
    exact (IH _ _ Hnot1 Hm1 E' r Hin).
Qed.

(** C6, as amended.  In every schedule from the start of the process:
    once a resolution of a name is done, a resolution of that name that
    arrives at any later moment is done at once with zero probe calls.
    It gives the same model as the first one, and so does every
    resolution of the name that is completed in between, whenever every
    probe of the name that returns after the first resolution has the
    verdict (accepted or refused) that the cache holds when the first
    resolution is done; that verdict is the one of the first resolution's
    own probe when it made one.  This is the case in particular when no
    other resolution of the name is suspended at its probe at that
    moment: then no probe of the name returns afterwards at all. *)
Theorem resolution_after_the_first
    (before later : list event) (e : event) (st st1 st2 : loop)
    (os0 os : list observation) (model : string) (nimModel : nim_model)
    (n : nat) :
  schedule start_of_process before = Some (st, os0) ->
  step st e = Some (st1, Done model nimModel n) ->
  schedule st1 later = Some (st2, os) ->
  (exists m, step st2 (Arrive model) = Some (st2, Done model m 0))
  /\ ((forall r, In (ProbeReturns model r) later ->
                 probe_ok r = recorded_verdict (verified st1) model) ->
      step st2 (Arrive model) = Some (st2, Done model nimModel 0)
      /\ (forall m k, In (Done model m k) os -> m = nimModel))
  /\ (forall r0, e = ProbeReturns model r0 ->
      recorded_verdict (verified st1) model = probe_ok r0)
  /\ (~ In model (suspended st1) ->
      forall r, ~ In (ProbeReturns model r) later).
Proof.
  intros Hbefore Hfirst Hlater.
  assert (Hinv : suspended_unmapped st).
  { eapply schedule_suspended_unmapped; [|exact Hbefore].
    intros m []. }
  assert (Hwf : cache_well_formed (verified st)).
  { eapply schedule_well_formed; [| |exact Hbefore].
    - intros k v H. cbn [start_of_process verified] in H.
      now rewrite lookup_empty in H.
    - intros m []. }
  pose proof (step_done_settles _ _ _ _ _ _ Hinv Hfirst) as Hsettled.
  split; [|split; [|split]].
  - destruct (schedule_keeps_probe_free _ _ _ _ model
                (ex_intro _ nimModel Hsettled) Hlater) as [m Hm].
    exists m. cbn [Resolver.step]. now rewrite Hm.
  - intros Hagree.
    destruct (agreeing_schedule _ _ _ _ _ _
                (step_suspended_unmapped _ _ _ _ Hinv Hfirst)
                (step_well_formed _ _ _ _ Hwf Hinv Hfirst)
                Hsettled Hagree Hlater) as [Hm Hos].
    split; [|exact Hos]. cbn [Resolver.step]. now rewrite Hm.
  - intros r0 ->. cbn [Resolver.step] in Hfirst.
    destruct (remove_one model (suspended st)); [|discriminate].
    pose proof (recorded_verdict_insert (verified st) model r0) as Hv.
    destruct (resolve_finish (verified st) model r0) as [c m].
    injection Hfirst as <- _. exact Hv.
  - intros Hnot.
    exact (settled_names_have_no_probe _ _ _ _ _ _ Hnot Hsettled Hlater).
Qed.

End Resolving.


(** Resolving "foo" twice in a row when the probe is rejected. *)
Lemma resolving_twice_witness :
  Resolver.resolve Demo.ascii_lower (<["foo" := None]> ∅) "foo"
    (Responded 200)
  = (<["foo" := None]> ∅, Backend SMALLEST, 0).
Proof.
  exact (resolving_twice Demo.ascii_lower ∅ (<["foo" := None]> ∅) "foo"
           (Responded 404) (Responded 200) (Backend SMALLEST) 1 eq_refl).
Defined.

(** The counterexample to C6 as stated.  Two requests for the unmapped
    name "foo" arrive before either probe returns.  The first probe is
    answered with status 200: that resolution is done with "foo".  The
    second is answered with status 429 and overwrites the cache entry.
    The request that arrives afterwards issues no probe and gets the
    smallest fallback model, not "foo". *)
Lemma overlapping_probes_change_the_answer :
  snd <$> Resolver.schedule Demo.ascii_lower start_of_process
            [ Arrive "foo"; Arrive "foo";
              ProbeReturns "foo" (Responded 200);
              ProbeReturns "foo" (Responded 429);
              Arrive "foo" ]
  = Some [ Suspended "foo"; Suspended "foo";
           Done "foo" (Backend "foo") 1;
           Done "foo" (Backend SMALLEST) 1;
           Done "foo" (Backend SMALLEST) 0 ]
  /\ Backend "foo" <> Backend SMALLEST.
Proof. split; [vm_compute; reflexivity | discriminate]. Qed.

(** C6 (amended) on a schedule with overlap: two requests for "foo"
    arrive before either probe returns, both probes are accepted, and
    "foo" is asked for again. *)
Lemma resolution_after_the_first_witness :
  Resolver.step Demo.ascii_lower
    {| verified := <["foo" := Some "foo"]> (<["foo" := Some "foo"]> ∅);
       suspended := [] |} (Arrive "foo")
  = Some ({| verified := <["foo" := Some "foo"]> (<["foo" := Some "foo"]> ∅);
             suspended := [] |}, Done "foo" (Backend "foo") 0)
  /\ (forall m k,
        In (Done "foo" m k) [Done "foo" (Backend "foo") 1] ->
        m = Backend "foo").
Proof.
  refine (proj1 (proj2 (resolution_after_the_first Demo.ascii_lower
                          [Arrive "foo"; Arrive "foo"]
                          [ProbeReturns "foo" (Responded 204)]
                          (ProbeReturns "foo" (Responded 200))
                          {| verified := ∅; suspended := ["foo"; "foo"] |}
                          {| verified := <["foo" := Some "foo"]> ∅;
                             suspended := ["foo"] |}
                          {| verified :=
                               <["foo" := Some "foo"]>
                                 (<["foo" := Some "foo"]> ∅);
                             suspended := [] |}
                          [Suspended "foo"; Suspended "foo"]
                          [Done "foo" (Backend "foo") 1]
                          "foo" (Backend "foo") 1
                          eq_refl eq_refl eq_refl)) _).
  intros r [[= <-] | []]. reflexivity.
Defined.

End ResolverFacts.

(** ** Validation and the upstream request *)

Module HandlerFacts.
Import JS Handler.

(** The validation passes exactly the non-empty arrays. *)
Lemma rejects_spec (messages : value) :
  rejects messages = false <-> exists x l, messages = JArr (x :: l).
Proof.
  split.
  - destruct messages as [| |b|n|s|l|f]; cbn; try discriminate;
      try (destruct b; discriminate); try (destruct n; discriminate);
      try (destruct s; discriminate).
    destruct l as [|x l]; [discriminate|]. intros _. now exists x, l.
  - now intros (x & l & ->).
Qed.


(** C7 at the failing input: a request with [temperature: 0] is sent
    upstream with temperature 0.85, and one with [max_tokens: 0] with
    16384: [||] takes the default for every falsy value, not only for an
    absent one. *)
Theorem temperature_zero_is_replaced (nimModel : Resolver.nim_model)
    (model : string) (messages max_tokens stream : value) :
  nr_temperature
    (nimRequest nimModel
       {| model := model; messages := messages; temperature := JNum num_0;
          max_tokens := max_tokens; stream := stream |})
  = JNum num_0_85
  /\ JNum num_0_85 <> JNum num_0.
Proof. split; [reflexivity | discriminate]. Qed.

Section Validation.

Variable toLowerCase : string -> string.
Abbreviation handle := (Handler.handle toLowerCase).

(** C8.  Whatever the cache and the model name: when [messages] is not a
    non-empty array (it is missing, no array, or an empty array), the
    first and only thing the handler does is to respond with status 400
    and the envelope [{error: {message, type, code}}]: no probe, no
    upstream call.  When [messages] is a non-empty array, the handler does
    not respond: it issues the probe or the upstream call. *)
Theorem messages_are_validated_first
    (verifiedModels : gmap string (option string)) (req : request) :
  ((forall x l, messages req <> JArr (x :: l)) ->
   handle verifiedModels req = Respond invalid_messages)
  /\ (forall x l, messages req = JArr (x :: l) ->
      handle verifiedModels req = Probe (model req)
      \/ exists nimModel,
           handle verifiedModels req = Upstream (nimRequest nimModel req))
  /\ status invalid_messages = 400%Z
  /\ exists message type,
       body invalid_messages
       = JObj [("error", JObj [("message", JStr message);
                               ("type", JStr type);
                               ("code", JNum num_400)])].
Proof.
  split; [|split; [|split]].
  - intros Hbad. unfold Handler.handle.
    destruct (rejects (messages req)) eqn:E; [reflexivity|].
    apply rejects_spec in E. destruct E as (x & l & E).
    now destruct (Hbad x l).
  - intros x l Hok. unfold Handler.handle.
    rewrite (proj2 (rejects_spec (messages req))) by eauto.
    destruct (Resolver.resolve_start toLowerCase verifiedModels (model req));
      eauto.
  - reflexivity.
  - eexists. eexists. reflexivity.
Qed.

End Validation.

(** C8 at a request with an empty array of messages. *)
Lemma messages_are_validated_first_witness :
  Handler.handle Demo.ascii_lower ∅
    {| model := "gpt-4"; messages := JArr []; temperature := JUndefined;
       max_tokens := JUndefined; stream := JUndefined |}
  = Respond invalid_messages.
Proof.
  refine (proj1 (messages_are_validated_first Demo.ascii_lower ∅
                   {| model := "gpt-4"; messages := JArr [];
                      temperature := JUndefined; max_tokens := JUndefined;
                      stream := JUndefined |}) _).
  intros x l H. discriminate H.
Defined.

End HandlerFacts.

(** ** More on the streaming transformer *)

Module StreamMore.
Import JS Stream Notions DeltaFacts.

(** *** The carry-over buffer never holds a line break *)

Lemma last_split_nl_free (s : string) :
  Str.free_of (ascii_of_N 10) (List.last (Str.split_nl s) EmptyString) = true.
Proof.
  induction s as [|c s IH]; [reflexivity|].
  cbn [Str.split_nl]. pose proof (StrFacts.split_nl_not_nil s) as Hne.
  destruct (Ascii.eqb c (ascii_of_N 10)) eqn:Hc.
  - destruct (Str.split_nl s) as [|h t]; [contradiction | exact IH].
  - destruct (Str.split_nl s) as [|h t]; [contradiction|].
    destruct t as [|h' t].
    + cbn [List.last] in *. cbn [Str.free_of]. now rewrite Hc, IH.
    + exact IH.
Qed.

Section Lines.

Variable Number_toString : spec_float -> string.
Variable JSON_parse : string -> option value.

Abbreviation transform := (Stream.transform Number_toString).
Abbreviation process_line := (Stream.process_line Number_toString JSON_parse).
Abbreviation process_lines := (Stream.process_lines Number_toString JSON_parse).
Abbreviation on_text := (Stream.on_text Number_toString JSON_parse).
Abbreviation on_data := (Stream.on_data Number_toString JSON_parse).
Abbreviation run := (Stream.run Number_toString JSON_parse).

(** After every chunk the buffer holds no line break: whatever was
    complete has been handled, and only the unfinished line waits. *)
Theorem buffer_holds_no_complete_line (show : bool) (st st' : state)
    (chunk : string) (ws : list write) :
  on_data show st chunk = (ws, st') ->
  Str.free_of (ascii_of_N 10) (buffer st') = true.
Proof.
  unfold Stream.on_data, Stream.on_text.
  destruct (process_lines show (reasoningStarted st) _) as [w s].
  intros [= _ <-]. cbn [buffer]. apply last_split_nl_free.
Qed.

(** *** Lines that are no event lines *)

(** A line that does not start with "data:" (a blank line of the framing,
    a comment, an "event:" line) writes nothing and changes nothing,
    wherever it stands among the lines of a chunk. *)
Theorem other_lines_are_ignored (show started : bool) (rawLine : string)
    (before after : list string) :
  Str.startsWith (Str.strip_cr rawLine) "data:" = false ->
  process_lines show started (before ++ rawLine :: after)
  = process_lines show started (before ++ after).
Proof.
  intros H.
  rewrite !(StreamFacts.process_lines_app Number_toString JSON_parse).
  destruct (process_lines show started before) as [w1 s1].
  cbn [Stream.process_lines]. unfold Stream.process_line at 1.
  rewrite H. cbn [negb app].
  now destruct (process_lines show s1 after).
Qed.

(** *** Event lines *)

Lemma process_line_of (show started : bool) (rawLine : string) (data : value) :
  line_of JSON_parse rawLine data ->
  process_line show started rawLine
  = match transform show started data with
    | Some r => r
    | None => ([], started)
    end.
Proof.
  intros (Hd & Hn & Hp). unfold Stream.process_line.
  now rewrite Hd, Hn, Hp.
Qed.

(** The four cases of an event with one text, trace display enabled. *)
Lemma delta_of_member (data : value) (k : string) (x : string) :
  member (first_delta data) k = JStr x ->
  exists fields,
    first_delta data = JObj fields
    /\ get data "choices" = Some (member data "choices").
Proof.
  intros H. destruct (first_delta data) as [| |b|n|s|l|fields] eqn:Hd;
    try discriminate.
  exists fields. split; [reflexivity|].
  exact (proj1 (StreamFacts.first_delta_update (fun d => d) data fields Hd)).
Qed.

Lemma transform_reasoning (started : bool) (l : event_line) :
  reasoning_line JSON_parse l ->
  transform true started (parsed l)
  = Some ([written_with (if started then text l
                         else OPEN_MARKER +:+ text l) l], true).
Proof.
  intros (_ & Hr & Hne & Hc).
  destruct (delta_of_member _ _ _ Hr) as (fields & Hd & Hg).
  unfold Stream.transform, written_with. rewrite Hg, Hd in *.
  cbn [truthy]. rewrite Hr, Hc.
  destruct (text l) as [|a r]; [contradiction|].
  now destruct started.
Qed.

Lemma transform_content (started : bool) (l : event_line) :
  content_line JSON_parse l ->
  transform true started (parsed l)
  = Some ((if started then [WData (closing_before_content (parsed l))]
           else []) ++ [written_with (text l) l], false).
Proof.
  intros (_ & Hc & Hne & Hr).
  destruct (delta_of_member _ _ _ Hc) as (fields & Hd & Hg).
  unfold Stream.transform, written_with. rewrite Hg, Hd in *.
  cbn [truthy]. rewrite Hr, Hc.
  destruct (text l) as [|a c]; [contradiction|].
  now destruct started.
Qed.

(** Reasoning after the first one is forwarded as it is. *)
Lemma reasoning_lines_continue (ls : list event_line) :
  Forall (reasoning_line JSON_parse) ls ->
  process_lines true true (map raw ls)
  = (map (fun l => written_with (text l) l) ls, true).
Proof.
  induction 1 as [|l ls Hl _ IH]; [reflexivity|].
  cbn [Stream.process_lines map].
  rewrite (process_line_of _ _ _ _ (proj1 Hl)), (transform_reasoning _ _ Hl).
  now rewrite IH.
Qed.

(** Content with no section open is forwarded as it is. *)
Lemma content_lines_pass (ls : list event_line) :
  Forall (content_line JSON_parse) ls ->
  process_lines true false (map raw ls)
  = (map (fun l => written_with (text l) l) ls, false).
Proof.
  induction 1 as [|l ls Hl _ IH]; [reflexivity|].
  cbn [Stream.process_lines map].
  rewrite (process_line_of _ _ _ _ (proj1 Hl)), (transform_content _ _ Hl).
  now rewrite IH.
Qed.


End Lines.

(** *** Carriage returns *)

Lemma free_of_app (c : ascii) (a b : string) :
  Str.free_of c (a +:+ b) = Str.free_of c a && Str.free_of c b.
Proof.
  induction a as [|x a IH]; [reflexivity|].
  rewrite StrFacts.app_cons. cbn [Str.free_of]. rewrite IH.
  now rewrite andb_assoc.
Qed.

Lemma split_nl_free (c : ascii) (s : string) :
  Str.free_of c s = true ->
  Forall (fun l => Str.free_of c l = true) (Str.split_nl s).
Proof.
  induction s as [|x s IH]; intros H.
  - repeat constructor.
  - cbn [Str.free_of] in H. apply andb_true_iff in H. destruct H as [Hx Hs].
    specialize (IH Hs). cbn [Str.split_nl].
    destruct (Ascii.eqb x (ascii_of_N 10)).
    + constructor; [reflexivity | exact IH].
    + destruct (Str.split_nl s) as [|h t].
      * repeat constructor. cbn [Str.free_of]. now rewrite Hx.
      * inversion IH as [|? ? Hh Ht]; subst. constructor; [|exact Ht].
        cbn [Str.free_of]. now rewrite Hx, Hh.
Qed.

(** A text in front that has no line break joins the first line. *)
Lemma split_nl_prefix (b t : string) :
  Str.free_of (ascii_of_N 10) b = true ->
  Str.split_nl (b +:+ t)
  = match Str.split_nl t with
    | h :: r => (b +:+ h) :: r
    | [] => [b]
    end.
Proof.
  induction b as [|c b IH]; intros H.
  - rewrite StrFacts.app_nil_l.
    pose proof (StrFacts.split_nl_not_nil t) as Hne.
    destruct (Str.split_nl t); [contradiction | reflexivity].
  - cbn [Str.free_of] in H. apply andb_true_iff in H. destruct H as [Hc Hb].
    apply negb_true_iff in Hc.
    rewrite StrFacts.app_cons. cbn [Str.split_nl]. rewrite Hc, (IH Hb).
    pose proof (StrFacts.split_nl_not_nil t) as Hne.
    destruct (Str.split_nl t); [contradiction | reflexivity].
Qed.

(** The lines of a text with carriage returns before its line breaks:
    every complete line gets one at its end, the unfinished line none. *)
Lemma split_nl_crlf (s : string) :
  Str.split_nl (crlf s)
  = map (fun l => l +:+ Str.CR) (removelast (Str.split_nl s))
      ++ [List.last (Str.split_nl s) EmptyString].
Proof.
  induction s as [|c s IH]; [reflexivity|].
  cbn [crlf Str.split_nl].
  pose proof (StrFacts.split_nl_decomp s) as Hd.
  generalize dependent (List.last (Str.split_nl s) EmptyString).
  generalize dependent (removelast (Str.split_nl s)).
  intros L f IH Hd. rewrite Hd.
  destruct (Ascii.eqb c (ascii_of_N 10)) eqn:Hc.
  - apply Ascii.eqb_eq in Hc. subst c. cbn [Str.split_nl].
    change (Ascii.eqb (ascii_of_N 13) (ascii_of_N 10)) with false.
    change (Ascii.eqb (ascii_of_N 10) (ascii_of_N 10)) with true.
    cbn iota. rewrite IH.
    change (EmptyString :: L ++ [f]) with ((EmptyString :: L) ++ [f]).
    rewrite removelast_last, last_last. reflexivity.
  - cbn [Str.split_nl]. rewrite Hc, IH.
    destruct L as [|h t]; cbn [app map].
    + reflexivity.
    + change (String c h :: t ++ [f]) with ((String c h :: t) ++ [f]).
      rewrite removelast_last, last_last. reflexivity.
Qed.

Lemma strip_cr_added (x : string) : Str.strip_cr (x +:+ Str.CR) = x.
Proof.
  induction x as [|c x IH]; [reflexivity|].
  rewrite StrFacts.app_cons. cbn [Str.strip_cr].
  destruct (x +:+ Str.CR) as [|a y] eqn:E.
  - destruct x; discriminate E.
  - now rewrite IH.
Qed.

Lemma strip_cr_none (x : string) :
  Str.free_of (ascii_of_N 13) x = true -> Str.strip_cr x = x.
Proof.
  induction x as [|c x IH]; [reflexivity|]. intros H.
  cbn [Str.free_of] in H. apply andb_true_iff in H. destruct H as [Hc Hx].
  apply negb_true_iff in Hc. cbn [Str.strip_cr].
  destruct x as [|a y]; [now rewrite Hc|].
  now rewrite (IH Hx).
Qed.

Section CarriageReturns.

Variable Number_toString : spec_float -> string.
Variable JSON_parse : string -> option value.

Abbreviation process_line_ := (Stream.process_line Number_toString JSON_parse).
Abbreviation process_lines_ := (Stream.process_lines Number_toString JSON_parse).
Abbreviation on_text_ := (Stream.on_text Number_toString JSON_parse).

Lemma process_line_cr (show started : bool) (x : string) :
  Str.free_of (ascii_of_N 13) x = true ->
  process_line_ show started (x +:+ Str.CR) = process_line_ show started x.
Proof.
  intros H. unfold Stream.process_line.
  now rewrite strip_cr_added, (strip_cr_none x H).
Qed.

Lemma process_lines_cr (show started : bool) (ls : list string) :
  Forall (fun l => Str.free_of (ascii_of_N 13) l = true) ls ->
  process_lines_ show started (map (fun l => l +:+ Str.CR) ls)
  = process_lines_ show started ls.
Proof.
  intros H. revert started.
  induction H as [|l ls Hl _ IH]; intros started; [reflexivity|].
  cbn [map Stream.process_lines]. rewrite (process_line_cr _ _ _ Hl).
  destruct (process_line_ show started l) as [w s]. now rewrite IH.
Qed.

(** A text whose lines end in carriage return and line break is handled
    like the same text with plain line breaks: the writes and the state
    afterwards are the same.  (The text and the buffer hold no other
    carriage return, and the buffer no line break.) *)
Theorem crlf_is_handled_like_lf (show : bool) (st : state) (text : string) :
  Str.free_of (ascii_of_N 13) text = true ->
  Str.free_of (ascii_of_N 13) (buffer st) = true ->
  Str.free_of (ascii_of_N 10) (buffer st) = true ->
  on_text_ show st (crlf text) = on_text_ show st text.
Proof.
  intros Ht Hb Hlf. unfold Stream.on_text, complete_lines, fragment.
  rewrite !(split_nl_prefix _ _ Hlf), split_nl_crlf.
  pose proof (split_nl_free _ _ Ht) as Hfree.
  pose proof (StrFacts.split_nl_decomp text) as Hd.
  generalize dependent (List.last (Str.split_nl text) EmptyString).
  generalize dependent (removelast (Str.split_nl text)).
  intros L f Hd. rewrite Hd in *. clear Hd.
  apply Forall_app in Hfree. destruct Hfree as [HL _].
  destruct L as [|h t]; [reflexivity|].
  inversion HL as [|? ? Hh Htl]; subst.
  cbn [map app].
  change ((buffer st +:+ h +:+ Str.CR) :: map (fun l => l +:+ Str.CR) t ++ [f])
    with (((buffer st +:+ h +:+ Str.CR) :: map (fun l => l +:+ Str.CR) t)
            ++ [f]).
  change ((buffer st +:+ h) :: t ++ [f])
    with (((buffer st +:+ h) :: t) ++ [f]).
  rewrite !removelast_last, !last_last.
  cbn [Stream.process_lines].
  rewrite StrFacts.app_assoc, process_line_cr.
  2:{ rewrite free_of_app. now rewrite Hb, Hh. }
  destruct (process_line_ show (reasoningStarted st) (buffer st +:+ h))
    as [w s].
  now rewrite (process_lines_cr _ _ _ Htl).
Qed.

End CarriageReturns.

(** *** With trace display disabled, reasoning has no influence *)

Section Display.

Variable Number_toString : spec_float -> string.
Abbreviation transform_ := (Stream.transform Number_toString).

Lemma transform_display_off (started : bool) (data : value) :
  transform_ false started data
  = match get data "choices" with
    | None => None
    | Some _ =>
        if truthy (first_delta data)
        then Some ([WData (update_delta
                             (rewrite_delta
                                (member (first_delta data) "content")) data)],
                   started)
        else Some ([WData data], started)
    end.
Proof. reflexivity. Qed.

(** With trace display disabled (the constant of the source) the
    reasoning field of an event has no influence on what is written:
    the event with its reasoning field removed beforehand gives the same
    writes and the same flag. *)
Theorem reasoning_has_no_influence (started : bool) (data : value) :
  transform_ false started
    (update_delta (delete_field "reasoning_content") data)
  = transform_ false started data.
Proof.
  destruct (focus_delta data) as [Hmiss | (Hread & Htwice & Hext & Hid)].
  - now rewrite Hmiss.
  - rewrite !transform_display_off.
    destruct (get data "choices") as [ch|] eqn:Hg.
    2:{ now rewrite (proj2 (get_update_delta _ _ _) Hg). }
    destruct (get (update_delta (delete_field "reasoning_content") data)
                "choices") as [ch'|] eqn:Hg'.
    2:{ apply get_update_delta in Hg'. congruence. }
    rewrite Hread.
    destruct (first_delta data) as [| |b|n|s0|l|fields] eqn:Hd;
      cbn [delete_field truthy];
      try (rewrite (Hid (delete_field "reasoning_content")) by reflexivity;
           reflexivity).
    rewrite Htwice. do 4 f_equal. apply Hext.
    unfold rewrite_delta. cbn [delete_field set_field member].
    rewrite JSFacts.assoc_del_other by reflexivity.
    now rewrite assoc_del_set_del.
Qed.

End Display.

(** *** A last line without a line break *)

Lemma split_nl_one (s : string) :
  Str.free_of (ascii_of_N 10) s = true -> Str.split_nl s = [s].
Proof.
  induction s as [|c s IH]; [reflexivity|]. cbn [Str.free_of Str.split_nl].
  intros H. apply andb_true_iff in H. destruct H as [Hc Hs].
  apply negb_true_iff in Hc. rewrite Hc, (IH Hs). reflexivity.
Qed.

Section Ending.

Variable Number_toString : spec_float -> string.
Variable JSON_parse : string -> option value.

(** A text without a line break only waits in the buffer: nothing is
    written for it, and the end of the stream does not look at the buffer.
    So a last event line that the backend did not end with a line break
    is never forwarded. *)
Theorem unterminated_last_line_is_lost (show : bool) (st : state)
    (text : string) :
  Str.free_of (ascii_of_N 10) (buffer st) = true ->
  Str.free_of (ascii_of_N 10) text = true ->
  Stream.on_text Number_toString JSON_parse show st text
  = ([], {| buffer := buffer st +:+ text;
            reasoningStarted := reasoningStarted st |})
  /\ on_end show
       (Stream.on_text Number_toString JSON_parse show st text).2
     = on_end show st.
Proof.
  intros Hb Ht.
  assert (H : Stream.on_text Number_toString JSON_parse show st text
              = ([], {| buffer := buffer st +:+ text;
                        reasoningStarted := reasoningStarted st |})).
  { unfold Stream.on_text, complete_lines, fragment.
    rewrite split_nl_one; [reflexivity|].
    rewrite free_of_app. now rewrite Hb, Ht. }
  split; [exact H|]. now rewrite H.
Qed.

End Ending.

(** *** Texts that cannot be added *)

Section Additions.

Variable Number_toString : spec_float -> string.

(** With trace display enabled, an event whose content is an object with
    an own property [toString] (which hides the method that string
    concatenation calls) is not forwarded: the addition of line 208
    throws.  By then the closing event has been written if it was due and
    the flag has been set by a reasoning text, and both stay. *)
Theorem content_that_cannot_be_added_drops_the_event
    (started : bool) (data : value)
    (fields : list (string * value)) (x : value) :
  member (first_delta data) "content" = JObj fields ->
  assoc "toString" fields = Some x ->
  JS.ToString Number_toString (member (first_delta data) "reasoning_content")
  <> None ->
  Stream.transform Number_toString true started data
  = Some (if started
             && negb (truthy (member (first_delta data) "reasoning_content"))
          then [WData (closing_before_content data)] else [],
          truthy (member (first_delta data) "reasoning_content")).
Proof.
  intros Hc Hx Hr.
  assert (Hd : exists delta,
             first_delta data = JObj delta
             /\ get data "choices" = Some (member data "choices")).
  { destruct (first_delta data) as [| |b|n|s|l|delta] eqn:Hd;
      try discriminate.
    exists delta. split; [reflexivity|].
    exact (proj1 (StreamFacts.first_delta_update (fun d => d) data delta
                    Hd)). }
  destruct Hd as (delta & Hd & Hg).
  unfold Stream.transform. rewrite Hg, Hd in *. cbn [truthy].
  rewrite Hc. cbn [truthy]. rewrite andb_true_r.
  set (reasoning := member (JObj delta) "reasoning_content") in *.
  assert (Hadd : forall a, JS.add Number_toString a (JObj fields) = None).
  { intros a.
    assert (Hn : JS.ToString Number_toString (JObj fields) = None).
    { cbn [JS.ToString]. now rewrite Hx. }
    unfold JS.add. rewrite Hn.
    destruct a; try reflexivity;
      match goal with
      | |- context [match ?t with Some _ => _ | None => _ end] =>
          now destruct t
      end. }
  destruct (JS.ToString Number_toString reasoning) as [r|] eqn:Er;
    [|contradiction].
  destruct (truthy reasoning) eqn:Ht; destruct started; cbn [andb negb];
    now rewrite ?Hadd.
Qed.

End Additions.

(** *** The theorems at work on the example events *)

Lemma buffer_holds_no_complete_line_witness :
  Str.free_of (ascii_of_N 10)
    (buffer (Stream.on_data Demo.number_text Demo.parse false Stream.init
               (Demo.stream_abc +:+ "data: {")).2) = true.
Proof.
  apply (buffer_holds_no_complete_line Demo.number_text Demo.parse false
           Stream.init _ (Demo.stream_abc +:+ "data: {")
           (Stream.on_data Demo.number_text Demo.parse false Stream.init
              (Demo.stream_abc +:+ "data: {")).1).
  apply surjective_pairing.
Defined.

Lemma other_lines_are_ignored_witness :
  Stream.process_lines Demo.number_text Demo.parse false false
    (["data: " +:+ Demo.event_text "c"] ++ ": keep-alive" :: [EmptyString])
  = Stream.process_lines Demo.number_text Demo.parse false false
      (["data: " +:+ Demo.event_text "c"] ++ [EmptyString]).
Proof.
  apply (other_lines_are_ignored Demo.number_text Demo.parse false false
           ": keep-alive" ["data: " +:+ Demo.event_text "c"] [EmptyString]).
  reflexivity.
Defined.


Lemma content_that_cannot_be_added_drops_the_event_witness :
  Stream.transform Demo.number_text true true
    (Events.chunk "x1" [("content", JObj [("toString", JNum num_1)])])
  = Some ([WData (closing_before_content
                    (Events.chunk "x1"
                       [("content", JObj [("toString", JNum num_1)])]))],
          false).
Proof.
  refine (content_that_cannot_be_added_drops_the_event Demo.number_text true
            (Events.chunk "x1" [("content", JObj [("toString", JNum num_1)])])
            [("toString", JNum num_1)] (JNum num_1) _ _ _).
  - reflexivity.
  - reflexivity.
  - discriminate.
Defined.

Lemma crlf_is_handled_like_lf_witness :
  Stream.on_text Demo.number_text Demo.parse true Stream.init
    (crlf Demo.stream_abc)
  = Stream.on_text Demo.number_text Demo.parse true Stream.init
      Demo.stream_abc.
Proof.
  apply (crlf_is_handled_like_lf Demo.number_text Demo.parse true
           Stream.init Demo.stream_abc); reflexivity.
Defined.

Lemma unterminated_last_line_is_lost_witness :
  Stream.on_text Demo.number_text Demo.parse false Stream.init
    "data: [DONE]"
  = ([], {| buffer := buffer Stream.init +:+ "data: [DONE]";
            reasoningStarted := reasoningStarted Stream.init |})
  /\ on_end false
       (Stream.on_text Demo.number_text Demo.parse false Stream.init
          "data: [DONE]").2
     = on_end false Stream.init.
Proof.
  apply (unterminated_last_line_is_lost Demo.number_text Demo.parse false
           Stream.init "data: [DONE]"); reflexivity.
Defined.

End StreamMore.

(** ** More on model resolution *)

Module ResolverMore.
Import JS Resolver Notions.

Lemma fallback_cases (toLowerCase : string -> string) (model : string) :
  Resolver.fallback toLowerCase model = LARGEST
  \/ Resolver.fallback toLowerCase model = MID
  \/ Resolver.fallback toLowerCase model = SMALLEST.
Proof.
  unfold Resolver.fallback.
  destruct (_ || _ || _); [now left|].
  destruct (_ || _ || _); [right; now left | right; now right].
Qed.

Lemma alias_resolves (toLowerCase : string -> string)
    (verifiedModels : gmap string (option string)) (alias backend : string)
    (r : probe_result) :
  In (alias, backend) MODEL_MAPPING ->
  Resolver.resolve toLowerCase verifiedModels alias r
  = (verifiedModels, Backend backend, 0).
Proof.
  intros H. cbn [MODEL_MAPPING In] in H.
  repeat (destruct H as [[= <- <-] | H]; [reflexivity|]).
  destruct H.
Qed.

Lemma mapped_alias (alias backend : string) :
  In (alias, backend) MODEL_MAPPING -> mapped alias = Some (Backend backend).
Proof.
  intros H. cbn [MODEL_MAPPING In] in H.
  repeat (destruct H as [[= <- <-] | H]; [reflexivity|]).
  destruct H.
Qed.

Section Resolving.

Variable toLowerCase : string -> string.

Abbreviation fallback := (Resolver.fallback toLowerCase).
Abbreviation or_fallback := (Resolver.or_fallback toLowerCase).
Abbreviation resolve_start := (Resolver.resolve_start toLowerCase).
Abbreviation resolve_finish := (Resolver.resolve_finish toLowerCase).
Abbreviation resolve := (Resolver.resolve toLowerCase).
Abbreviation step := (Resolver.step toLowerCase).
Abbreviation schedule := (Resolver.schedule toLowerCase).

(** *** The models of the list *)

(** Every model that [GET /v1/models] lists is an alias of the table, and
    a request for it resolves to the backend model of the table in every
    cache: no probe call is made and the cache is left as it is. *)
Theorem listed_models_resolve_without_a_probe
    (created_at : string -> spec_float)
    (verifiedModels : gmap string (option string)) (r : probe_result)
    (entries : list value) (entry : value) :
  member (Response.list_models created_at) "data" = JArr entries ->
  In entry entries ->
  exists id backend,
    member entry "id" = JStr id
    /\ In (id, backend) MODEL_MAPPING
    /\ resolve verifiedModels id r = (verifiedModels, Backend backend, 0).
Proof.
  intros Hdata Hin.
  assert (Hentries :
            entries
            = map (fun p : string * string =>
                     JObj [("id", JStr (fst p)); ("object", JStr "model");
                           ("created", JNum (created_at (fst p)));
                           ("owned_by", JStr "nvidia-nim-proxy")])
                  MODEL_MAPPING).
  { injection Hdata as <-. reflexivity. }
  rewrite Hentries in Hin. apply in_map_iff in Hin.
  destruct Hin as [[id backend] [<- Hin]].
  exists id, backend. repeat split; [exact Hin|].
  now apply alias_resolves.
Qed.

(** *** Names outside the table *)

Lemma or_fallback_cases (model : string) (entry : option string) :
  entry = None \/ entry = Some model ->
  or_fallback model entry <> EmptyString
  /\ (or_fallback model entry = model
      \/ or_fallback model entry = LARGEST
      \/ or_fallback model entry = MID
      \/ or_fallback model entry = SMALLEST).
Proof.
  assert (Hf : fallback model <> EmptyString
               /\ (fallback model = LARGEST \/ fallback model = MID
                   \/ fallback model = SMALLEST)).
  { destruct (fallback_cases toLowerCase model) as [H | [H | H]]; rewrite H;
      split; try discriminate; auto. }
  destruct Hf as [Hne Hc].
  intros [-> | ->]; cbn [Resolver.or_fallback].
  - split; [exact Hne | right; exact Hc].
  - destruct model as [|a model].
    + split; [exact Hne | right; exact Hc].
    + split; [discriminate | now left].
Qed.


(** *** The cache *)

(** Whatever requests arrive and however their probes interleave, the
    cache holds entries for names outside the table only, and each entry
    is the name itself or [null]: no alias is ever cached and no name is
    ever cached as another name. *)
Theorem cache_stays_well_formed (es : list event) (st : loop)
    (os : list observation) :
  schedule start_of_process es = Some (st, os) ->
  cache_well_formed (verified st).
Proof.
  apply ResolverFacts.schedule_well_formed.
  - intros k v H. cbn [start_of_process verified] in H.
    now rewrite lookup_empty in H.
  - intros m [].
Qed.

Lemma step_keeps_entries (st st' : loop) (e : event) (o : observation)
    (k : string) :
  is_Some (verified st !! k) -> step st e = Some (st', o) ->
  is_Some (verified st' !! k).
Proof.
  intros Hk Hstep.
  destruct e as [model | model r]; cbn [Resolver.step] in Hstep.
  - destruct (resolve_start (verified st) model);
      injection Hstep as <- _; exact Hk.
  - destruct (remove_one model (suspended st)) as [rest|]; [|discriminate].
    unfold Resolver.resolve_finish in Hstep.
    destruct (probe_ok r); injection Hstep as <- _; cbn [verified];
      (destruct (decide (k = model)) as [-> | Hne];
       [ rewrite lookup_insert_eq; eauto
       | rewrite lookup_insert_ne by congruence; exact Hk ]).
Qed.

(** The cache has no eviction: a name that has an entry keeps an entry
    through every later event, so it is never probed again by a request
    that arrives later. *)
Theorem cache_entries_are_never_removed (es : list event) (st st' : loop)
    (os : list observation) (k : string) :
  is_Some (verified st !! k) ->
  schedule st es = Some (st', os) ->
  is_Some (verified st' !! k)
  /\ (mapped k = None ->
      exists m, step st' (Arrive k) = Some (st', Done k m 0)).
Proof.
  intros Hk Hs.
  assert (H : is_Some (verified st' !! k)).
  { revert st os Hk Hs. induction es as [|e es IH]; intros st os Hk;
      cbn [Resolver.schedule].
    - now intros [= <- _].
    - destruct (step st e) as [[st1 o]|] eqn:E; [|discriminate].
      destruct (schedule st1 es) as [[st2 os']|] eqn:E'; [|discriminate].
      intros [= <- _]. eapply IH; [|exact E'].
      eapply step_keeps_entries; eassumption. }
  split; [exact H|]. intros Hmap. destruct H as [entry Hentry].
  cbn [Resolver.step]. unfold Resolver.resolve_start.
  rewrite Hmap, Hentry. eauto.
Qed.

End Resolving.


Lemma listed_models_resolve_without_a_probe_witness :
  exists id backend,
    member (JObj [("id", JStr "gpt-4o"); ("object", JStr "model");
                  ("created", JNum num_0);
                  ("owned_by", JStr "nvidia-nim-proxy")]) "id" = JStr id
    /\ In (id, backend) MODEL_MAPPING
    /\ Resolver.resolve Demo.ascii_lower ∅ id Threw = (∅, Backend backend, 0).
Proof.
  refine (listed_models_resolve_without_a_probe Demo.ascii_lower
            (fun _ => num_0) ∅ Threw _ _ eq_refl _).
  cbn [map Response.aliases MODEL_MAPPING fst In]. do 3 right. left.
  reflexivity.
Defined.

Lemma cache_stays_well_formed_witness :
  cache_well_formed
    (<["bar" := None]> (<["foo" := Some "foo"]> ∅)).
Proof.
  refine (cache_stays_well_formed Demo.ascii_lower
            [ Arrive "foo"; Arrive "bar";
              ProbeReturns "foo" (Responded 200);
              ProbeReturns "bar" Threw ]
            {| verified := <["bar" := None]> (<["foo" := Some "foo"]> ∅);
               suspended := [] |}
            [ Suspended "foo"; Suspended "bar";
              Done "foo" (Backend "foo") 1;
              Done "bar" (Backend SMALLEST) 1 ] _).
  reflexivity.
Defined.

Lemma cache_entries_are_never_removed_witness :
  is_Some ((<["bar" := None]> (<["foo" := Some "foo"]> ∅)
            : gmap string (option string)) !! "foo")
  /\ (mapped "foo" = None ->
      exists m,
        Resolver.step Demo.ascii_lower
          {| verified := <["bar" := None]> (<["foo" := Some "foo"]> ∅);
             suspended := [] |} (Arrive "foo")
        = Some ({| verified := <["bar" := None]> (<["foo" := Some "foo"]> ∅);
                   suspended := [] |}, Done "foo" m 0)).
Proof.
  refine (cache_entries_are_never_removed Demo.ascii_lower
            [ Arrive "bar"; ProbeReturns "bar" Threw ]
            {| verified := <["foo" := Some "foo"]> ∅; suspended := [] |}
            {| verified := <["bar" := None]> (<["foo" := Some "foo"]> ∅);
               suspended := [] |}
            [ Suspended "bar"; Done "bar" (Backend SMALLEST) 1 ] "foo" _ _).
  - cbn [verified]. rewrite lookup_insert_eq. eauto.
  - reflexivity.
Defined.

End ResolverMore.

(** ** More on the request handler *)

Module HandlerMore.
Import JS Resolver Handler.

Lemma fallback_has_no_thinking (toLowerCase : string -> string)
    (model : string) :
  useThinking (Backend (Resolver.fallback toLowerCase model)) = false.
Proof.
  destruct (ResolverMore.fallback_cases toLowerCase model) as [H | [H | H]];
    rewrite H; reflexivity.
Qed.

Section Handling.

Variable toLowerCase : string -> string.

Abbreviation handle := (Handler.handle toLowerCase).
Abbreviation resume := (Handler.resume toLowerCase).




(** A model name that is a member of [Object.prototype] (such as
    "constructor" or "toString") is taken for an entry of the table: no
    probe is made and no fallback is chosen, and the upstream request
    carries the inherited member in place of a model name. *)
Theorem inherited_members_pass_for_table_entries
    (verifiedModels : gmap string (option string)) (req : request) :
  rejects (messages req) = false ->
  In (model req) Object_prototype_keys ->
  handle verifiedModels req = Upstream (nimRequest (Inherited (model req)) req)
  /\ nr_model (nimRequest (Inherited (model req)) req)
     = Inherited (model req)
  /\ nr_chat_template_kwargs (nimRequest (Inherited (model req)) req) = None.
Proof.
  intros Hok Hin. unfold Handler.handle, Resolver.resolve_start.
  rewrite Hok. split; [|split; reflexivity].
  assert (Hm : mapped (model req) = Some (Inherited (model req))).
  { cbn [Object_prototype_keys In] in Hin.
    repeat (destruct Hin as [<- | Hin]; [reflexivity|]).
    destruct Hin. }
  now rewrite Hm.
Qed.

End Handling.



Lemma inherited_members_pass_for_table_entries_witness :
  Handler.handle Demo.ascii_lower ∅
    {| model := "constructor"; messages := JArr [JObj []];
       temperature := JUndefined; max_tokens := JUndefined;
       stream := JUndefined |}
  = Upstream (nimRequest (Inherited "constructor")
                {| model := "constructor"; messages := JArr [JObj []];
                   temperature := JUndefined; max_tokens := JUndefined;
                   stream := JUndefined |})
  /\ nr_model
       (nimRequest (Inherited "constructor")
          {| model := "constructor"; messages := JArr [JObj []];
             temperature := JUndefined; max_tokens := JUndefined;
             stream := JUndefined |})
     = Inherited "constructor"
  /\ nr_chat_template_kwargs
       (nimRequest (Inherited "constructor")
          {| model := "constructor"; messages := JArr [JObj []];
             temperature := JUndefined; max_tokens := JUndefined;
             stream := JUndefined |}) = None.
Proof.
  refine (inherited_members_pass_for_table_entries Demo.ascii_lower ∅
            {| model := "constructor"; messages := JArr [JObj []];
               temperature := JUndefined; max_tokens := JUndefined;
               stream := JUndefined |} _ _).
  - reflexivity.
  - cbn [Object_prototype_keys In model]. left. reflexivity.
Defined.

End HandlerMore.

(** ** The response without streaming *)

Module ResponseFacts.
Import JS Builder Response Notions.

(** *** When the pattern of the inline trace does not match *)

Lemma includes_tail (c : ascii) (s needle : string) :
  Str.includes (String c s) needle = false -> Str.includes s needle = false.
Proof.
  cbn [Str.includes]. intros H. apply orb_false_iff in H. apply H.
Qed.

Lemma includes_after_prefix (p s r needle : string) :
  Str.strip_prefix p s = Some r ->
  Str.includes s needle = false -> Str.includes r needle = false.
Proof.
  revert s. induction p as [|a p IH]; intros s; cbn [Str.strip_prefix].
  - now intros [= <-].
  - destruct s as [|b s]; [discriminate|].
    destruct (Ascii.eqb a b); [|discriminate].
    intros Hp Hi. apply (IH s Hp). exact (includes_tail _ _ _ Hi).
Qed.

Lemma split_at_first_absent (needle s : string) :
  Str.includes s needle = false -> Str.split_at_first needle s = None.
Proof.
  induction s as [|c s IH]; cbn [Str.includes Str.split_at_first];
    unfold Str.startsWith; intros H; apply orb_false_iff in H;
    destruct H as [H1 H2].
  - now destruct (Str.strip_prefix needle EmptyString).
  - destruct (Str.strip_prefix needle (String c s)); [discriminate|].
    now rewrite (IH H2).
Qed.

Lemma think_match_absent (s : string) :
  Str.startsWith s "<think>" = false \/ Str.includes s "</think>" = false ->
  think_match s = None.
Proof.
  unfold think_match, Str.startsWith.
  destruct (Str.strip_prefix "<think>" s) as [r|] eqn:E; [|reflexivity].
  intros [H | H]; [discriminate|].
  now rewrite (split_at_first_absent _ _ (includes_after_prefix _ _ _ _ E H)).
Qed.

Lemma map_choices_Forall2 (f : value -> option value) (l os : list value) :
  map_choices f l = Some os -> Forall2 (fun c o => f c = Some o) l os.
Proof.
  revert os. induction l as [|c l IH]; intros os; cbn [map_choices].
  - intros [= <-]. constructor.
  - destruct (f c) as [o|] eqn:E; [|discriminate].
    destruct (map_choices f l) as [os'|]; [|discriminate].
    intros [= <-]. constructor; [exact E | now apply IH].
Qed.

Lemma map_choices_total (f : value -> option value) (l : list value) :
  Forall (fun c => exists o, f c = Some o) l ->
  exists os, map_choices f l = Some os.
Proof.
  induction 1 as [|c l [o Ho] _ [os IH]]; cbn [map_choices]; [eauto|].
  rewrite Ho, IH. eauto.
Qed.

Lemma map_choices_fails (f : value -> option value) (l : list value)
    (c : value) :
  In c l -> f c = None -> map_choices f l = None.
Proof.
  intros Hin Hc. induction l as [|x l IH]; [destruct Hin|].
  cbn [map_choices]. destruct Hin as [-> | Hin].
  - now rewrite Hc.
  - destruct (f x); [|reflexivity]. now rewrite (IH Hin).
Qed.

Lemma outbound_choice_shape (choice content out : value) :
  outbound_choice choice content = Some out ->
  out = written_choice choice content.
Proof.
  unfold outbound_choice, written_choice, get.
  destruct (member choice "message"); try discriminate; now intros [= <-].
Qed.

Section Choices.

Variable Number_toString : spec_float -> string.

Abbreviation build_choice := (Builder.build_choice Number_toString).
Abbreviation build_response := (Response.build_response Number_toString).

(** With trace display disabled, a text content that does not begin with
    the opening marker, or that has no closing marker, is forwarded
    unchanged, whatever the model and whatever else the message holds.
    In particular a trace that comes after other text stays in the
    content. *)
Theorem content_without_a_leading_trace_is_kept
    (useThinking : bool) (choice message : value) (s : string) :
  get choice "message" = Some message ->
  opt_get message "content" = JStr s ->
  Str.startsWith s "<think>" = false \/ Str.includes s "</think>" = false ->
  build_choice useThinking false choice = outbound_choice choice (JStr s).
Proof.
  intros Hm Hc Hs. unfold Builder.build_choice. rewrite Hm, Hc.
  assert (Hor : or_else (JStr s) (JStr EmptyString) = JStr s).
  { now destruct s. }
  rewrite Hor. cbn [andb].
  destruct (negb useThinking && negb (truthy _)); [|reflexivity].
  cbn [content_includes_think].
  destruct (Str.includes s "<think>"); [|reflexivity].
  now rewrite (think_match_absent s Hs).
Qed.

(** *** The shape of what is built *)

Lemma build_choice_shape (useThinking show : bool) (choice out : value) :
  build_choice useThinking show choice = Some out ->
  exists content, out = written_choice choice content.
Proof.
  unfold Builder.build_choice.
  destruct (get choice "message") as [message|]; [|discriminate].
  set (content := or_else (opt_get message "content") (JStr EmptyString)).
  set (reasoning :=
         or_else (opt_get message "reasoning_content") (JStr EmptyString)).
  assert (Husual :
            (if show && truthy reasoning
             then match JS.ToString Number_toString reasoning,
                        JS.ToString Number_toString content with
                  | Some r, Some c =>
                      outbound_choice choice (JStr (bracket r c))
                  | _, _ => None
                  end
             else outbound_choice choice content) = Some out ->
            exists content, out = written_choice choice content).
  { destruct (show && truthy reasoning).
    - destruct (JS.ToString Number_toString reasoning); [|discriminate].
      destruct (JS.ToString Number_toString content); [|discriminate].
      intros H. apply outbound_choice_shape in H. eauto.
    - intros H. apply outbound_choice_shape in H. eauto. }
  destruct (negb useThinking && negb (truthy reasoning)); [|exact Husual].
  destruct (content_includes_think content) as [[|]|];
    [|exact Husual|discriminate].
  destruct content; try discriminate.
  destruct (think_match s) as [[inner rest]|]; [|exact Husual].
  intros H. apply outbound_choice_shape in H. eauto.
Qed.


(** *** Replies that are answered *)

Lemma plain_choice_is_built (useThinking show : bool) (choice : value) :
  plain_choice choice ->
  show = false \/ plain_reasoning choice ->
  exists out, build_choice useThinking show choice = Some out.
Proof.
  intros (fields & Hm & Hc) Hshow. unfold Builder.build_choice. rewrite Hm.
  assert (Hrole : forall content,
             exists out, outbound_choice choice content = Some out).
  { intros content. unfold outbound_choice.
    assert (Hmm : member choice "message" = JObj fields).
    { destruct choice; try discriminate; now injection Hm. }
    rewrite Hmm. cbn [get]. eauto. }
  assert (Hs : exists s,
             or_else (opt_get (JObj fields) "content") (JStr EmptyString)
             = JStr s).
  { cbn [opt_get]. destruct Hc as [[s Hc] | [Hc | Hc]]; rewrite Hc.
    - exists s. now destruct s.
    - now exists EmptyString.
    - now exists EmptyString. }
  destruct Hs as [s Hs]. rewrite Hs.
  set (reasoning :=
         or_else (opt_get (JObj fields) "reasoning_content")
           (JStr EmptyString)).
  assert (Husual :
            exists out,
              (if show && truthy reasoning
               then match JS.ToString Number_toString reasoning,
                          JS.ToString Number_toString (JStr s) with
                    | Some r, Some c =>
                        outbound_choice choice (JStr (bracket r c))
                    | _, _ => None
                    end
               else outbound_choice choice (JStr s)) = Some out).
  { destruct Hshow as [-> | Hr]; [apply Hrole|].
    assert (Ho : opt_get choice "message" = JObj fields).
    { destruct choice; try discriminate; cbn [opt_get]; now injection Hm. }
    unfold plain_reasoning in Hr. rewrite Ho in Hr.
    assert (Hrs : exists r, reasoning = JStr r).
    { subst reasoning. destruct Hr as [[r Hr] | [Hr | Hr]]; rewrite Hr.
      - exists r. now destruct r.
      - now exists EmptyString.
      - now exists EmptyString. }
    destruct Hrs as [r ->].
    destruct (show && truthy (JStr r)); apply Hrole. }
  destruct (negb useThinking && negb (truthy reasoning)); [|exact Husual].
  cbn [content_includes_think].
  destruct (Str.includes s "<think>"); [|exact Husual].
  destruct (think_match s) as [[inner rest]|]; [apply Hrole | exact Husual].
Qed.

(** A reply of the backend whose choices all have a message object with
    a text, [null] or no content is always answered when trace display is
    disabled (as in the source), and with trace display enabled when the
    reasoning of every choice is a text, [null] or missing too: building
    the reply cannot fail, for any model and any number of choices. *)
Theorem plain_replies_are_answered (id : string) (created : spec_float)
    (model : string) (useThinking show : bool) (data : value)
    (upstream : list value) :
  member data "choices" = JArr upstream ->
  Forall plain_choice upstream ->
  show = false \/ Forall plain_reasoning upstream ->
  exists out, build_response id created model useThinking show data = Some out.
Proof.
  intros Hch Hall Hshow. unfold Response.build_response.
  assert (Hlog : debug_log data = Some tt).
  { unfold debug_log, rawContent.
    assert (Hg : get data "choices" = Some (JArr upstream)).
    { destruct data; try discriminate. cbn [get]. now rewrite Hch. }
    rewrite Hg, Hch.
    destruct Hall as [|c l (fields & Hm & Hc) _]; [reflexivity|].
    cbn [opt_index0].
    assert (Ho : opt_get c "message" = JObj fields).
    { destruct c; try discriminate; cbn [opt_get]; now injection Hm. }
    rewrite Ho. cbn [opt_get].
    destruct Hc as [[s Hc] | [Hc | Hc]]; rewrite Hc; try reflexivity.
    now destruct s. }
  rewrite Hlog, Hch.
  destruct (map_choices_total (build_choice useThinking show) upstream)
    as [os Hos].
  { apply Forall_forall. intros c Hin.
    apply plain_choice_is_built.
    - exact (proj1 (Forall_forall _ _) Hall c Hin).
    - destruct Hshow as [-> | Hr]; [now left | right].
      exact (proj1 (Forall_forall _ _) Hr c Hin). }
  rewrite Hos. eauto.
Qed.

(** *** Replies that fail *)

Lemma choice_without_message (useThinking show : bool) (choice : value) :
  opt_get choice "message" = JUndefined \/ opt_get choice "message" = JNull ->
  build_choice useThinking show choice = None.
Proof.
  intros H. unfold Builder.build_choice.
  destruct (get choice "message") as [message|] eqn:Hm; [|reflexivity].
  assert (Hmm : member choice "message" = message
                /\ opt_get choice "message" = message).
  { destruct choice; try discriminate; cbn [get opt_get] in *;
      injection Hm as <-; now split. }
  destruct Hmm as [Hmem Hopt]. rewrite Hopt in H.
  assert (Hout : forall content, outbound_choice choice content = None).
  { intros content. unfold outbound_choice. rewrite Hmem.
    now destruct H as [-> | ->]. }
  destruct H as [-> | ->]; cbn [opt_get or_else truthy];
    rewrite andb_false_r;
    destruct useThinking; cbn [negb andb content_includes_think];
    try apply Hout.
  all: change (Str.includes EmptyString "<think>") with false; apply Hout.
Qed.

(** One choice without a message object, anywhere among the choices,
    makes the building of the whole reply fail: no choice is answered. *)
Theorem a_choice_without_message_fails_the_reply
    (id : string) (created : spec_float) (model : string)
    (useThinking show : bool) (data : value) (upstream : list value)
    (choice : value) :
  member data "choices" = JArr upstream ->
  In choice upstream ->
  opt_get choice "message" = JUndefined \/ opt_get choice "message" = JNull ->
  build_response id created model useThinking show data = None.
Proof.
  intros Hch Hin Hm. unfold Response.build_response.
  destruct (debug_log data); [|reflexivity].
  rewrite Hch.
  now rewrite (map_choices_fails _ _ _ Hin
                 (choice_without_message useThinking show choice Hm)).
Qed.

(** A first choice whose content is truthy but no text (an array of
    parts, an object, a number, [true]) makes the reply fail in the
    debugging lines, before anything is built, for any model and any
    setting. *)
Theorem content_that_is_no_text_fails_the_reply
    (id : string) (created : spec_float) (model : string)
    (useThinking show : bool) (data : value) :
  truthy (rawContent data) = true ->
  (forall s, rawContent data <> JStr s) ->
  build_response id created model useThinking show data = None.
Proof.
  intros Ht Hs. unfold Response.build_response, debug_log.
  destruct (get data "choices"); [|reflexivity].
  rewrite Ht. destruct (rawContent data) eqn:E; try reflexivity.
  now destruct (Hs s).
Qed.

(** With trace display enabled, a choice whose reasoning is an object
    with an own property [toString] makes the building of the whole reply
    fail: the additions of line 286 throw. *)
Theorem reasoning_that_cannot_be_added_fails_the_reply
    (id : string) (created : spec_float) (model : string)
    (useThinking : bool) (data : value) (upstream : list value)
    (choice message : value) (fields : list (string * value)) (x : value) :
  member data "choices" = JArr upstream ->
  In choice upstream ->
  get choice "message" = Some message ->
  opt_get message "reasoning_content" = JObj fields ->
  assoc "toString" fields = Some x ->
  build_response id created model useThinking true data = None.
Proof.
  intros Hch Hin Hm Hr Hx. unfold Response.build_response.
  destruct (debug_log data); [|reflexivity].
  rewrite Hch. rewrite (map_choices_fails _ _ _ Hin); [reflexivity|].
  unfold Builder.build_choice. rewrite Hm, Hr.
  cbn [or_else truthy negb andb JS.ToString]. rewrite andb_false_r.
  now rewrite Hx.
Qed.

End Choices.

(** *** The error reply *)

(** Whenever an error is answered, the code in the body is the status of
    the reply, the status is that of the backend when the backend
    answered with one and 500 otherwise, and the type is always
    [invalid_request_error], whatever went wrong. *)
Theorem error_replies_carry_their_status (upstream_status : option Z)
    (message : string) :
  exists r,
    failed false upstream_status message = Some r
    /\ Handler.status r <> 0%Z
    /\ member (member (Handler.body r) "error") "code"
       = JNum (double_of_Z (Handler.status r))
    /\ member (member (Handler.body r) "error") "type"
       = JStr "invalid_request_error"
    /\ truthy (member (member (Handler.body r) "error") "message") = true
    /\ Handler.status r
       = match upstream_status with
         | Some s => if (s =? 0)%Z then 500%Z else s
         | None => 500%Z
         end.
Proof.
  unfold failed. eexists. split; [reflexivity|].
  cbn [Handler.status Handler.body member assoc String.eqb Ascii.eqb
       Bool.eqb].
  repeat split.
  - destruct upstream_status as [s|]; [|discriminate].
    destruct (s =? 0)%Z eqn:E; [discriminate|]. now apply Z.eqb_neq.
  - now destruct message.
Qed.

(** *** The theorems at work *)

Lemma content_without_a_leading_trace_is_kept_witness :
  Builder.build_choice Demo.number_text false false
    (Demo.choice_with_content "Sure. <think>plan</think> Done")
  = outbound_choice (Demo.choice_with_content "Sure. <think>plan</think> Done")
      (JStr "Sure. <think>plan</think> Done").
Proof.
  refine (content_without_a_leading_trace_is_kept Demo.number_text false
            (Demo.choice_with_content "Sure. <think>plan</think> Done")
            (JObj [("role", JStr "assistant");
                   ("content", JStr "Sure. <think>plan</think> Done")])
            "Sure. <think>plan</think> Done" _ _ _).
  - reflexivity.
  - reflexivity.
  - left. reflexivity.
Defined.


Lemma plain_replies_are_answered_witness :
  exists out,
    Response.build_response Demo.number_text "chatcmpl-1" num_1 "gpt-4o"
      false false
      (JObj [("choices", JArr [Demo.choice_with_content "hello"])])
    = Some out.
Proof.
  refine (plain_replies_are_answered Demo.number_text "chatcmpl-1" num_1
            "gpt-4o" false false
            (JObj [("choices", JArr [Demo.choice_with_content "hello"])])
            [Demo.choice_with_content "hello"] _ _ _).
  - reflexivity.
  - repeat constructor.
    exists [("role", JStr "assistant"); ("content", JStr "hello")].
    split; [reflexivity | left; now exists "hello"].
  - now left.
Defined.

Lemma a_choice_without_message_fails_the_reply_witness :
  Response.build_response Demo.number_text "chatcmpl-1" num_1 "gpt-4o"
    false false
    (JObj [("choices",
            JArr [Demo.choice_with_content "hello";
                  JObj [("index", JNum num_1)]])])
  = None.
Proof.
  refine (a_choice_without_message_fails_the_reply Demo.number_text
            "chatcmpl-1" num_1 "gpt-4o" false false
            (JObj [("choices",
                    JArr [Demo.choice_with_content "hello";
                          JObj [("index", JNum num_1)]])])
            [Demo.choice_with_content "hello"; JObj [("index", JNum num_1)]]
            (JObj [("index", JNum num_1)]) _ _ _).
  - reflexivity.
  - right. left. reflexivity.
  - left. reflexivity.
Defined.

Lemma reasoning_that_cannot_be_added_fails_the_reply_witness :
  Response.build_response Demo.number_text "chatcmpl-1" num_1 "gpt-4o"
    false true
    (JObj [("choices",
            JArr [JObj [("index", JNum num_0);
                        ("message",
                         JObj [("role", JStr "assistant");
                               ("content", JStr "hello");
                               ("reasoning_content",
                                JObj [("toString", JNum num_1)])]);
                        ("finish_reason", JStr "stop")]])])
  = None.
Proof.
  refine (reasoning_that_cannot_be_added_fails_the_reply Demo.number_text
            "chatcmpl-1" num_1 "gpt-4o" false
            (JObj [("choices",
                    JArr [JObj [("index", JNum num_0);
                                ("message",
                                 JObj [("role", JStr "assistant");
                                       ("content", JStr "hello");
                                       ("reasoning_content",
                                        JObj [("toString", JNum num_1)])]);
                                ("finish_reason", JStr "stop")]])])
            [JObj [("index", JNum num_0);
                   ("message",
                    JObj [("role", JStr "assistant");
                          ("content", JStr "hello");
                          ("reasoning_content",
                           JObj [("toString", JNum num_1)])]);
                   ("finish_reason", JStr "stop")]]
            (JObj [("index", JNum num_0);
                   ("message",
                    JObj [("role", JStr "assistant");
                          ("content", JStr "hello");
                          ("reasoning_content",
                           JObj [("toString", JNum num_1)])]);
                   ("finish_reason", JStr "stop")])
            (JObj [("role", JStr "assistant");
                   ("content", JStr "hello");
                   ("reasoning_content", JObj [("toString", JNum num_1)])])
            [("toString", JNum num_1)] (JNum num_1) _ _ _ _ _).
  - reflexivity.
  - left. reflexivity.
  - reflexivity.
  - reflexivity.
  - reflexivity.
Defined.

Lemma content_that_is_no_text_fails_the_reply_witness :
  Response.build_response Demo.number_text "chatcmpl-1" num_1 "gpt-4o"
    true false
    (JObj [("choices",
            JArr [JObj [("index", JNum num_0);
                        ("message",
                         JObj [("role", JStr "assistant");
                               ("content",
                                JArr [JObj [("type", JStr "text");
                                            ("text", JStr "hello")]])]);
                        ("finish_reason", JStr "stop")]])])
  = None.
Proof.
  refine (content_that_is_no_text_fails_the_reply Demo.number_text
            "chatcmpl-1" num_1 "gpt-4o" true false
            (JObj [("choices",
                    JArr [JObj [("index", JNum num_0);
                                ("message",
                                 JObj [("role", JStr "assistant");
                                       ("content",
                                        JArr [JObj [("type", JStr "text");
                                                    ("text", JStr "hello")]])]);
                                ("finish_reason", JStr "stop")]])]) _ _).
  - reflexivity.
  - intros s. discriminate.
Defined.

End ResponseFacts.
